(** * RAG_Eval: the retrieval services and the vector-store session manager

    A shallow embedding of [app/services/hybrid_rag_service.py],
    [app/services/dense_rag_service.py], [app/services/hyde_service.py] and
    [app/services/qdrantclient.py].

    Python integers are [Z]; Python lists are [list]; dictionaries with string
    keys are [gmap string _]; a Python [float] is kept as its binary64 bit
    pattern (the services never compute on floats, they only pass them on).
    Code that calls an external library (embedding models, the Qdrant client,
    the language model, [uuid.uuid4], [str.format]) is modelled by explicit
    state passing over an abstract environment [Env]: every external call is a
    function of the environment that returns a result or an exception together
    with the next environment, and is recorded in a trace of events. *)

From stdpp Require Import base numbers list strings gmap pretty.
Open Scope Z_scope.

(** ** Python preliminaries *)

(** Exceptions.  All of them derive from [Exception], so every [except
    Exception] handler of the services catches each of them. *)
Inductive Exn : Type :=
  | ValueError (msg : string)
  | AttributeError (msg : string)
  | IndexError (msg : string)
  | ServiceError (msg : string).

(** [str(e)] as it is spliced into the f-strings of the log messages. *)
Definition exn_str (e : Exn) : string :=
  match e with
  | ValueError msg | AttributeError msg | IndexError msg | ServiceError msg => msg
  end.

Definition is_ok {A} (r : Exn + A) : bool :=
  match r with inr _ => true | inl _ => false end.

Module Py.

(** [len(range(start, stop, step))] for a non-zero step. *)
Definition range_len (start stop step : Z) : Z :=
  if 0 <? step then
    if start <? stop then (stop - start - 1) `div` step + 1 else 0
  else
    if stop <? start then (start - stop - 1) `div` (- step) + 1 else 0.

(** [list(range(start, stop, step))]; a zero step raises [ValueError]. *)
Definition range (start stop step : Z) : Exn + list Z :=
  if step =? 0 then inl (ValueError "range() arg 3 must not be zero")
  else inr ((λ k : nat, start + Z.of_nat k * step)
              <$> seq 0 (Z.to_nat (range_len start stop step))).

(** How a slice bound is clipped against the length of the sequence. *)
Definition slice_index (len i : Z) : Z :=
  if i <? 0 then Z.max (i + len) 0 else Z.min i len.

(** [l[i:j]]. *)
Definition slice {A} (l : list A) (i j : Z) : list A :=
  let len := Z.of_nat (length l) in
  let lo := slice_index len i in
  let hi := slice_index len j in
  take (Z.to_nat (hi - lo)) (drop (Z.to_nat lo) l).

(** [len(l)]. *)
Definition len {A} (l : list A) : Z := Z.of_nat (length l).

(** [for i, x in enumerate(l)] as the list of pairs it walks through. *)
Definition enumerate {A} (l : list A) : list (nat * A) := imap pair l.

End Py.

(** ** A state and exception monad for the services *)

Definition M (S A : Type) : Type := S → (Exn + A) * S.

Definition ret {S A} (a : A) : M S A := λ s, (inr a, s).

Definition bind {S A B} (m : M S A) (f : A → M S B) : M S B := λ s,
  match m s with
  | (inl e, s') => (inl e, s')
  | (inr a, s') => f a s'
  end.

(** [raise e] *)
Definition raise {S A} (e : Exn) : M S A := λ s, (inl e, s).

(** [try: body  except Exception as e: handler e] *)
Definition try_catch {S A} (body : M S A) (handler : Exn → M S A) : M S A :=
  λ s, match body s with
       | (inl e, s') => handler e s'
       | (inr a, s') => (inr a, s')
       end.

(** A pure computation that may raise, run inside the monad. *)
Definition lift {S A} (r : Exn + A) : M S A := λ s, (r, s).

Notation "'let*' x := m 'in' k" := (bind m (λ x, k))
  (at level 10, x name, m at level 100, k at level 200).
Notation "'let*' ' p := m 'in' k" := (bind m (λ x, match x with p => k end))
  (at level 10, p pattern, m at level 100, k at level 200).
Notation "m >> k" := (bind m (λ _, k))
  (at level 100, k at level 200, right associativity).

(** ** Data model *)

(** A Python float, as its IEEE-754 binary64 bit pattern. *)
Definition float64 : Type := Z.

(** [langchain.schema.Document] *)
Record Document : Type := mkDocument {
  page_content : string;
  metadata : gmap string string;
}.

Definition DenseVec : Type := list float64.

(** What the sparse embedding model yields for one text; [indices] and
    [values] are the arrays after [.tolist()]. *)
Record SparseEmbedding : Type := mkSparseEmbedding {
  emb_indices : list Z;
  emb_values : list float64;
}.

(** [models.SparseVector] *)
Record SparseVector : Type := mkSparseVector {
  indices : list Z;
  values : list float64;
}.

(** The dictionary [{"dense": ..., "sparse": ...}] of a point. *)
Record NamedVectors : Type := mkNamedVectors {
  vec_dense : DenseVec;
  vec_sparse : SparseVector;
}.

(** The dictionary [{"content": ..., "metadata": ...}] of a point. *)
Record Payload : Type := mkPayload {
  content : string;
  payload_metadata : gmap string string;
}.

(** [models.PointStruct] *)
Record PointStruct : Type := mkPointStruct {
  point_id : string;
  vector : NamedVectors;
  payload : Payload;
}.

(** A [QdrantClient] object: its identity and the URL it was built from. *)
Record QdrantClient : Type := mkQdrantClient {
  client_id : nat;
  client_url : string;
}.

(** [models.Fusion] *)
Inductive Fusion : Type := RRF | DBSF.

(** The [query] argument of [query_points] and of [models.Prefetch]. *)
Inductive Query : Type :=
  | QDense (v : DenseVec)
  | QSparse (v : SparseVector)
  | FusionQuery (fusion : Fusion).

(** [models.Prefetch] *)
Record Prefetch : Type := mkPrefetch {
  pf_query : Query;
  pf_using : string;
  pf_limit : Z;
}.

(** [models.FieldCondition(key=..., match=models.MatchValue(value=...))] *)
Record FieldCondition : Type := mkFieldCondition {
  key : string;
  match_value : string;
}.

(** [models.Filter(must=[...])] *)
Record Filter : Type := mkFilter {
  must : list FieldCondition;
}.

(** The keyword arguments of one [client.query_points] call; an argument
    that the call site leaves out is [None]. *)
Record QueryRequest : Type := mkQueryRequest {
  collection_name : string;
  prefetch : list Prefetch;
  query : Query;
  using_ : option string;
  query_filter : option Filter;
  limit : option Z;
}.

(** [models.ScoredPoint] *)
Record ScoredPoint : Type := mkScoredPoint {
  sp_id : string;
  sp_score : float64;
  sp_payload : Payload;
}.

(** [models.QueryResponse] *)
Record QueryResponse : Type := mkQueryResponse {
  points : list ScoredPoint;
}.

(** Log records of the ["pipeline"] logger; [logger.exception] logs at
    level [ERROR]. *)
Inductive Level : Type := INFO | WARNING | ERROR.

Record LogRecord : Type := mkLogRecord {
  level : Level;
  message : string;
}.

(** One entry per call that leaves the repository, with what it returned. *)
Inductive Event : Type :=
  | EvEmbedQuery (text : string) (r : Exn + DenseVec)
  | EvSparseEmbed (texts : list string) (r : Exn + list SparseEmbedding)
  | EvUuid4 (id : string)
  | EvUploadPoints (name : string) (pts : list PointStruct)
      (batch_size : Z) (r : Exn + ())
  | EvQueryPoints (req : QueryRequest) (r : Exn + QueryResponse)
  | EvRerankDocs (documents : list ScoredPoint) (q : string)
      (r : Exn + list ScoredPoint)
  | EvInvoke (prompt : string) (r : Exn + string)
  | EvRetrieverInvoke (search_type : string) (q : string)
      (r : Exn + list Document).

(** The state the services run in: the external environment, the log and
    the trace of external calls made so far. *)
Record State (Env : Type) : Type := mkState {
  env : Env;
  log : list LogRecord;
  trace : list Event;
}.
Arguments mkState {Env} _ _ _.
Arguments env {Env} _.
Arguments log {Env} _.
Arguments trace {Env} _.

(** An external call: run the oracle on the environment and record it. *)
Definition call {Env A} (oracle : Env → (Exn + A) * Env)
    (ev : Exn + A → Event) : M (State Env) A :=
  λ s, let '(r, e') := oracle (env s) in
       (r, mkState e' (log s) (trace s ++ [ev r])).

(** [logger.info], [logger.warning], [logger.exception] *)
Definition logger_log {Env} (lvl : Level) (msg : string) : M (State Env) () :=
  λ s, (inr (), mkState (env s) (log s ++ [mkLogRecord lvl msg]) (trace s)).
Definition logger_info {Env} := @logger_log Env INFO.
Definition logger_warning {Env} := @logger_log Env WARNING.
Definition logger_exception {Env} := @logger_log Env ERROR.

(** An external call that cannot raise. *)
Definition call_total {Env A} (oracle : Env → A * Env)
    (ev : A → Event) : M (State Env) A :=
  λ s, let '(a, e') := oracle (env s) in
       (inr a, mkState e' (log s) (trace s ++ [ev a])).

(** The filter every search attaches:
    [models.Filter(must=[models.FieldCondition(key="metadata.pdf_id",
    match=models.MatchValue(value=pdf_id))])]. *)
Definition pdf_id_filter (pdf_id : string) : Filter :=
  mkFilter [mkFieldCondition "metadata.pdf_id" pdf_id].

(** ** [HybridRagService] *)

Module Hybrid.
Section Service.

Context {Env : Type}.

(** [settings.DENSE_EMBEDDING_MODEL.embed_query(text)] *)
Variable embed_query : string → Env → (Exn + DenseVec) * Env.
(** [list(settings.SPARSE_EMBEDDING_MODEL.embed(texts))] *)
Variable sparse_embed : list string → Env → (Exn + list SparseEmbedding) * Env.
(** [str(uuid.uuid4())] *)
Variable uuid4 : Env → string * Env.
(** [self.client.upload_points(collection_name=, points=, batch_size=)] *)
Variable upload_points :
  string → list PointStruct → Z → Env → (Exn + ()) * Env.
(** [self.client.query_points(...)] *)
Variable query_points : QueryRequest → Env → (Exn + QueryResponse) * Env.
(** [self.llm_manager.rerank_docs(documents, query)] *)
Variable rerank_docs :
  list ScoredPoint → string → Env → (Exn + list ScoredPoint) * Env.
(** [self.llm_manager.llm.invoke(prompt)] *)
Variable llm_invoke : string → Env → (Exn + string) * Env.
(** [template.format(question=question, context=context)] *)
Variable str_format : string → string → string → Exn + string.
(** [utils.const.prompt_template], kept in [self.prompt_template] *)
Variable prompt_template : string.

Local Abbreviation St := (State Env).

Definition create_dense_vector (text : string) : M St DenseVec :=
  try_catch
    (let* embeddings := call (embed_query text) (EvEmbedQuery text) in
     ret embeddings)
    (λ e, raise e).

Definition create_sparse_vector (text : string) : M St SparseVector :=
  try_catch
    (let* embedded := call (sparse_embed [text]) (EvSparseEmbed [text]) in
     let* embeddings :=
       match embedded with
       | [] => raise (IndexError "list index out of range")
       | x :: _ => ret x
       end in
     ret (mkSparseVector (emb_indices embeddings) (emb_values embeddings)))
    (λ e, raise e).

(** The body of [for i, doc in enumerate(batch)]; [points] and
    [invalid_chunks] are the two locals it updates. *)
Definition index_doc (i : nat) (doc : Document)
    (points : list PointStruct) (invalid_chunks : Z)
  : M St (list PointStruct * Z) :=
  let* dense_embedding :=
    try_catch
      (let* v := create_dense_vector (page_content doc) in ret (Some v))
      (λ e,
        logger_exception
          ("Error creating dense vector for document " +:+ pretty i
             +:+ ": " +:+ exn_str e) >>
        ret None) in
  let* sparse_embedding :=
    try_catch
      (let* v := create_sparse_vector (page_content doc) in ret (Some v))
      (λ e,
        logger_exception
          ("Error creating sparse vector for document " +:+ pretty i
             +:+ ": " +:+ exn_str e) >>
        ret None) in
  match dense_embedding, sparse_embedding with
  | Some d, Some sp =>
      let* id := call_total uuid4 EvUuid4 in
      ret (points ++ [mkPointStruct id (mkNamedVectors d sp)
                        (mkPayload (page_content doc) (metadata doc))],
           invalid_chunks)
  | _, _ =>
      logger_warning
        ("Skipping indexing for document " +:+ pretty i
           +:+ " due to failed embeddings.") >>
      ret (points, invalid_chunks + 1)
  end.

(** [for i, doc in enumerate(batch): ...] *)
Fixpoint index_docs (batch : list (nat * Document))
    (points : list PointStruct) (invalid_chunks : Z)
  : M St (list PointStruct * Z) :=
  match batch with
  | [] => ret (points, invalid_chunks)
  | (i, doc) :: rest =>
      let* '(points, invalid_chunks) :=
        index_doc i doc points invalid_chunks in
      index_docs rest points invalid_chunks
  end.

(** The body of [for batch_idx, batch in enumerate(tqdm(batched_chunks))]. *)
Definition index_batch (n_chunks : Z) (brain_id : string) (batch_size : Z)
    (batch : list Document) (invalid_chunks : Z) : M St Z :=
  let* '(points, invalid_chunks) :=
    index_docs (Py.enumerate batch) [] invalid_chunks in
  (if bool_decide (points ≠ []) then
     call (upload_points brain_id points batch_size)
          (EvUploadPoints brain_id points batch_size) >>
     logger_info
       ("Indexed " +:+ pretty n_chunks
          +:+ " documents into Qdrant Hybrid Collection.")
   else ret ()) >>
  ret invalid_chunks.

Fixpoint index_batches (n_chunks : Z) (brain_id : string) (batch_size : Z)
    (batches : list (list Document)) (invalid_chunks : Z) : M St Z :=
  match batches with
  | [] => ret invalid_chunks
  | batch :: rest =>
      let* invalid_chunks :=
        index_batch n_chunks brain_id batch_size batch invalid_chunks in
      index_batches n_chunks brain_id batch_size rest invalid_chunks
  end.

(** [[chunks[i : i + batch_size] for i in range(0, len(chunks), batch_size)]] *)
Definition batched_chunks (chunks : list Document) (batch_size : Z)
  : Exn + list (list Document) :=
  match Py.range 0 (Py.len chunks) batch_size with
  | inl e => inl e
  | inr starts => inr ((λ i, Py.slice chunks i (i + batch_size)) <$> starts)
  end.

(** The [try] block of [index_hybrid_collection] up to its [return]: the
    value is that of the local [invalid_chunks] when the loop is over. *)
Definition index_loop (chunks : list Document) (brain_id : string)
    (batch_size : Z) : M St Z :=
  let invalid_chunks := 0 in
  let* batches := lift (batched_chunks chunks batch_size) in
  index_batches (Py.len chunks) brain_id batch_size batches invalid_chunks.

Definition index_hybrid_collection (chunks : list Document)
    (brain_id : string) (batch_size : Z) : M St bool :=
  logger_info
    ("Indexing " +:+ pretty (Py.len chunks)
       +:+ " documents into Qdrant Hybrid Collection.") >>
  try_catch
    (let* invalid_chunks := index_loop chunks brain_id batch_size in
     ret (invalid_chunks =? 0))
    (λ e,
      logger_exception
        ("Error occurred during batch indexing: " +:+ exn_str e) >>
      ret false).

Definition hybrid_search (q selected_pdf_id brain_id : string) (lim : Z)
  : M St (list ScoredPoint) :=
  logger_info "Performing hybrid search for the selected pdf" >>
  try_catch
    (let* dense_query := create_dense_vector q in
     let* sparse_query := create_sparse_vector q in
     let req :=
       {| collection_name := brain_id;
          prefetch :=
            [ mkPrefetch (QSparse sparse_query) "sparse" lim;
              mkPrefetch (QDense dense_query) "dense" lim ];
          query := FusionQuery RRF;
          using_ := None;
          query_filter := Some (pdf_id_filter selected_pdf_id);
          limit := Some lim |} in
     let* results := call (query_points req) (EvQueryPoints req) in
     let documents := points results in
     let* reranked_docs :=
       call (rerank_docs documents q) (EvRerankDocs documents q) in
     logger_info
       ("Results generated: " +:+ pretty (Py.len reranked_docs)
          +:+ " documents retirved") >>
     ret reranked_docs)
    (λ e, raise e).

Definition sparse_search (q pdf_id brain_id : string)
  : M St (list ScoredPoint) :=
  try_catch
    (let* embedded := call (sparse_embed [q]) (EvSparseEmbed [q]) in
     let* sparse_query :=
       match embedded with
       | [] => raise (IndexError "list index out of range")
       | x :: _ => ret x
       end in
     let sparse_query :=
       mkSparseVector (emb_indices sparse_query) (emb_values sparse_query) in
     logger_info "Begin sparse Search" >>
     let req :=
       {| collection_name := brain_id;
          prefetch := [];
          query := QSparse sparse_query;
          using_ := Some "sparse";
          query_filter := Some (pdf_id_filter pdf_id);
          limit := None |} in
     let* results := call (query_points req) (EvQueryPoints req) in
     let documents := points results in
     logger_info
       ("Sparse Search Completed. Result: " +:+ pretty (Py.len documents)
          +:+ " documents retrieved") >>
     ret documents)
    (λ e, raise e).

Definition generate_response (question context : string) : M St string :=
  try_catch
    (let* formatted_prompt :=
       lift (str_format prompt_template question context) in
     let* response :=
       call (llm_invoke formatted_prompt) (EvInvoke formatted_prompt) in
     logger_info "response generated" >>
     ret response)
    (λ e, raise e).

End Service.
End Hybrid.

(** ** [DenseRagService] *)

Module Dense.
Section Service.

Context {Env : Type}.

Variable query_points : QueryRequest → Env → (Exn + QueryResponse) * Env.
Variable llm_invoke : string → Env → (Exn + string) * Env.
Variable str_format : string → string → string → Exn + string.
Variable prompt_template : string.

Local Abbreviation St := (State Env).

Definition dense_search (q : DenseVec) (pdf_id brain_id : string)
  : M St (list ScoredPoint) :=
  logger_info "Begin dense Search" >>
  let req :=
    {| collection_name := brain_id;
       prefetch := [];
       query := QDense q;
       using_ := Some "dense";
       query_filter := Some (pdf_id_filter pdf_id);
       limit := None |} in
  let* results := call (query_points req) (EvQueryPoints req) in
  let documents := points results in
  logger_info ("Dense Search Completed. " +:+ pretty (Py.len documents)) >>
  ret documents.

Definition generate_response (question context : string) : M St string :=
  let* formatted_prompt :=
    lift (str_format prompt_template question context) in
  let* response :=
    call (llm_invoke formatted_prompt) (EvInvoke formatted_prompt) in
  ret response.

End Service.
End Dense.

(** ** [HyDEService] *)

Module HyDE.

Definition dq : string := String (Ascii.ascii_of_nat 34) EmptyString.
Definition nl : string := String (Ascii.ascii_of_nat 10) EmptyString.

(** The template literal of [__init__]. *)
Definition hyde_prompt_template : string :=
  "You are an AI assistant for answering questions about the various documents from the user." +:+ nl +:+
  "        You are given the following extracted parts of a long document and a question.If you are not provided with any extracted" +:+ nl +:+
  "        parts of the documments then try to generate an answer based on your knowledge and facts in your knowledge. Remember to provide a conversational answer." +:+ nl +:+
  "        If you don't know the answer, just say " +:+ dq +:+ "Hmm, I'm not sure." +:+ dq +:+ " Don't try to make up an answer." +:+ nl +:+
  "        Question: {question}" +:+ nl +:+
  "        =========" +:+ nl +:+
  "        {context}" +:+ nl +:+
  "        =========" +:+ nl +:+
  "        Answer in Markdown: ".

(** A retriever as [vector_store.as_retriever(search_type=...)] makes it. *)
Record Retriever : Type := mkRetriever {
  search_type : string;
}.

(** The attributes of a [HyDEService] object.  [__init__] assigns
    [client], [llm_manager] and [prompt_template]; an attribute that was
    never assigned is [None] here, and reading it raises
    [AttributeError]. *)
Record HyDEService : Type := mkHyDEService {
  client : QdrantClient;
  prompt_template : string;
  retriever : option Retriever;
}.

(** [HyDEService(client)]: the assignments to [self.vector_store] and
    [self.retriever] are commented out in [__init__]. *)
Definition __init__ (client : QdrantClient) : HyDEService :=
  {| client := client;
     prompt_template := hyde_prompt_template;
     retriever := None |}.

Section Service.

Context {Env : Type}.

(** [retriever.invoke(query)] *)
Variable retriever_invoke :
  Retriever → string → Env → (Exn + list Document) * Env.
Variable llm_invoke : string → Env → (Exn + string) * Env.
Variable str_format : string → string → string → Exn + string.

Local Abbreviation St := (State Env).

Definition no_retriever_attribute : Exn :=
  AttributeError "'HyDEService' object has no attribute 'retriever'".

Definition hyde_search (self : HyDEService) (q : string)
  : M St (list Document) :=
  let* retriever :=
    match retriever self with
    | Some r => ret r
    | None => raise no_retriever_attribute
    end in
  let* results :=
    call (retriever_invoke retriever q)
         (EvRetrieverInvoke (search_type retriever) q) in
  ret results.

Definition generate_response (self : HyDEService)
    (question context : string) : M St string :=
  let* formatted_prompt :=
    lift (str_format (prompt_template self) question context) in
  let* response :=
    call (llm_invoke formatted_prompt) (EvInvoke formatted_prompt) in
  ret response.

End Service.
End HyDE.

(** ** [QdrantClientManager] *)

Module Manager.

(** [models.Distance] *)
Inductive Distance : Type := COSINE | EUCLID | DOT | MANHATTAN.

(** [models.VectorParams] *)
Record VectorParams : Type := mkVectorParams {
  size : Z;
  distance : Distance;
}.

(** [models.SparseVectorParams()] *)
Inductive SparseVectorParams : Type := mkSparseVectorParams.

(** The two configuration dictionaries of [create_collection]. *)
Record CollectionConfig : Type := mkCollectionConfig {
  vectors_config : gmap string VectorParams;
  sparse_vectors_config : gmap string SparseVectorParams;
}.

(** The attributes of a [QdrantClientManager] object.  An attribute that
    has never been assigned is [None]; [client] holds Python's [None]
    ([Some None]) or a client ([Some (Some c)]); [logger] holds the
    name of a logger. *)
Record QdrantClientManager : Type := mkManager {
  client : option (option QdrantClient);
  logger : option string;
}.

(** [QdrantClientManager()]: the class has no [__init__] and no class
    attributes, so the new object has neither [client] nor [logger]. *)
Definition new : QdrantClientManager :=
  {| client := None; logger := None |}.

(** The manager object together with what it acts on: the clients
    constructed so far, the collections of the Qdrant server, and the
    log. *)
Record World : Type := mkWorld {
  self : QdrantClientManager;
  clients : list QdrantClient;
  collections : gmap string CollectionConfig;
  mlog : list LogRecord;
}.

Definition set_self (m : QdrantClientManager) (w : World) : World :=
  mkWorld m (clients w) (collections w) (mlog w).

Definition no_client_attribute : Exn :=
  AttributeError "'QdrantClientManager' object has no attribute 'client'".

(** [self.client] *)
Definition self_client : M World (option QdrantClient) := λ w,
  match client (self w) with
  | Some v => (inr v, w)
  | None => (inl no_client_attribute, w)
  end.

(** [self.client = v] *)
Definition set_self_client (v : option QdrantClient) : M World () := λ w,
  (inr (), set_self (mkManager (Some v) (logger (self w))) w).

(** [self.logger.info(msg)] *)
Definition self_logger_info (msg : string) : M World () := λ w,
  match logger (self w) with
  | Some _ =>
      (inr (), mkWorld (self w) (clients w) (collections w)
                 (mlog w ++ [mkLogRecord INFO msg]))
  | None =>
      (inl (AttributeError
              "'QdrantClientManager' object has no attribute 'logger'"), w)
  end.

(** [QdrantClient(url=url)]: a new client object; it does not connect. *)
Definition QdrantClient_new (url : string) : M World QdrantClient := λ w,
  let c := mkQdrantClient (length (clients w)) url in
  (inr c, mkWorld (self w) (clients w ++ [c]) (collections w) (mlog w)).

(** [client.collection_exists(collection_name=name)] *)
Definition collection_exists (c : QdrantClient) (name : string)
  : M World bool := λ w,
  (inr (bool_decide (is_Some (collections w !! name))), w).

(** [client.create_collection(collection_name=name, ...)]; the server
    refuses to create a collection that exists. *)
Definition create_collection (c : QdrantClient) (name : string)
    (cfg : CollectionConfig) : M World () := λ w,
  match collections w !! name with
  | Some _ =>
      (inl (ServiceError ("Collection `" +:+ name +:+ "` already exists!")), w)
  | None =>
      (inr (), mkWorld (self w) (clients w)
                 (<[name := cfg]> (collections w)) (mlog w))
  end.

Section Settings.

(** [settings.QDRANT_URL] and [settings.HYBRID_COLLECTION] *)
Variable QDRANT_URL : string.
Variable HYBRID_COLLECTION : string.

Definition get_client : M World QdrantClient :=
  let* c := self_client in
  match c with
  | None =>
      let* created := QdrantClient_new QDRANT_URL in
      set_self_client (Some created) >>
      self_logger_info "Qdrant client created." >>
      ret created
  | Some c => ret c
  end.

(** The configuration [_create_collection] asks for. *)
Definition hybrid_config : CollectionConfig :=
  {| vectors_config := {[ "dense" := mkVectorParams 384 COSINE ]};
     sparse_vectors_config := {[ "sparse" := mkSparseVectorParams ]} |}.

Definition _create_collection (c : QdrantClient) : M World () :=
  create_collection c HYBRID_COLLECTION hybrid_config.

Definition create_hybrid_collection : M World () :=
  let* c := get_client in
  let* found := collection_exists c HYBRID_COLLECTION in
  if negb found then
    _create_collection c >>
    self_logger_info
      ("Created hybrid collection '" +:+ HYBRID_COLLECTION
         +:+ "' in Qdrant.")
  else
    self_logger_info
      ("Hybrid collection '" +:+ HYBRID_COLLECTION +:+ "' already exists.").

(** What one call is to leave of the collections of the server: the
    hybrid collection is added when it is not there. *)
Definition ensured (cols : gmap string CollectionConfig)
  : gmap string CollectionConfig :=
  match cols !! HYBRID_COLLECTION with
  | Some _ => cols
  | None => <[HYBRID_COLLECTION := hybrid_config]> cols
  end.

(** [n] calls of [create_hybrid_collection] in a row. *)
Fixpoint create_times (n : nat) : M World () :=
  match n with
  | O => ret ()
  | S n => create_hybrid_collection >> create_times n
  end.

End Settings.
End Manager.

(** ** Notions used to state the properties *)

(** The batches of a list for a positive batch size [b]: [m] windows of
    width [b]. *)
Definition windows {A} (b : nat) (l : list A) (m : nat) : list (list A) :=
  (λ k, take b (drop (k * b) l)) <$> seq 0 m.

(** What [create_sparse_vector] makes of the sparse model's answer. *)
Definition sparse_result (r : Exn + list SparseEmbedding) : Exn + SparseVector :=
  match r with
  | inl e => inl e
  | inr [] => inl (IndexError "list index out of range")
  | inr (x :: _) => inr (mkSparseVector (emb_indices x) (emb_values x))
  end.

(** The point built from a chunk and its two embeddings. *)
Definition point_of (id : string) (doc : Document) (d : DenseVec)
    (sp : SparseVector) : PointStruct :=
  mkPointStruct id (mkNamedVectors d sp)
    (mkPayload (page_content doc) (metadata doc)).

(** The events of the embedding attempts on a list of chunks, the points
    they yield and the number of chunks skipped. *)
Inductive docs_run : list Document → list Event → list PointStruct → nat → Prop :=
  | docs_run_nil : docs_run [] [] [] 0
  | docs_run_point doc d r sp id docs evs pts k :
      sparse_result r = inr sp →
      docs_run docs evs pts k →
      docs_run (doc :: docs)
        (EvEmbedQuery (page_content doc) (inr d)
           :: EvSparseEmbed [page_content doc] r :: EvUuid4 id :: evs)
        (point_of id doc d sp :: pts) k
  | docs_run_skip doc d r docs evs pts k :
      is_ok d && is_ok (sparse_result r) = false →
      docs_run docs evs pts k →
      docs_run (doc :: docs)
        (EvEmbedQuery (page_content doc) d
           :: EvSparseEmbed [page_content doc] r :: evs)
        pts (S k).

(** The events of the batch loop over a list of batches: how many batches it
    entered, how many chunks it skipped, and the exception that ended it
    early, if any. *)
Inductive batches_run (brain_id : string) (batch_size : Z) :
    list (list Document) → list Event → nat → nat → option Exn → Prop :=
  | batches_run_nil : batches_run brain_id batch_size [] [] 0 0 None
  | batches_run_quiet batch evs k rest evs' n k' ab :
      docs_run batch evs [] k →
      batches_run brain_id batch_size rest evs' n k' ab →
      batches_run brain_id batch_size (batch :: rest) (evs ++ evs')
        (S n) (k + k') ab
  | batches_run_upload batch evs pts k rest evs' n k' ab :
      docs_run batch evs pts k → pts ≠ [] →
      batches_run brain_id batch_size rest evs' n k' ab →
      batches_run brain_id batch_size (batch :: rest)
        (evs ++ EvUploadPoints brain_id pts batch_size (inr ()) :: evs')
        (S n) (k + k') ab
  | batches_run_abort batch evs pts k rest e :
      docs_run batch evs pts k → pts ≠ [] →
      batches_run brain_id batch_size (batch :: rest)
        (evs ++ [EvUploadPoints brain_id pts batch_size (inl e)])
        1 k (Some e).

(** *** Projections of a trace *)

Definition dense_calls (tr : list Event) : list (string * (Exn + DenseVec)) :=
  omap (λ ev, match ev with EvEmbedQuery t r => Some (t, r) | _ => None end) tr.

Definition sparse_calls (tr : list Event)
  : list (list string * (Exn + list SparseEmbedding)) :=
  omap (λ ev, match ev with EvSparseEmbed ts r => Some (ts, r) | _ => None end) tr.

Definition upload_calls (tr : list Event)
  : list (list PointStruct * (Exn + ())) :=
  omap (λ ev, match ev with
              | EvUploadPoints _ pts _ r => Some (pts, r)
              | _ => None
              end) tr.

Definition query_calls (tr : list Event)
  : list (QueryRequest * (Exn + QueryResponse)) :=
  omap (λ ev, match ev with EvQueryPoints req r => Some (req, r) | _ => None end) tr.

Definition rerank_calls (tr : list Event)
  : list (list ScoredPoint * string * (Exn + list ScoredPoint)) :=
  omap (λ ev, match ev with
              | EvRerankDocs docs q r => Some (docs, q, r)
              | _ => None
              end) tr.

Definition invoke_calls (tr : list Event) : list (string * (Exn + string)) :=
  omap (λ ev, match ev with EvInvoke p r => Some (p, r) | _ => None end) tr.

(** The points handed to [upload_points], in order. *)
Definition submitted (tr : list Event) : list PointStruct :=
  concat ((upload_calls tr).*1).

(** The points of the [upload_points] calls that returned. *)
Definition stored (tr : list Event) : list PointStruct :=
  concat ((filter (λ c, is_ok c.2 = true) (upload_calls tr)).*1).

(** Every [upload_points] call of the trace returned. *)
Definition uploads_ok (tr : list Event) : Prop :=
  Forall (λ c, is_ok c.2 = true) (upload_calls tr).

(** One chunk with the outcome of its two embedding computations. *)
Record Attempt : Type := mkAttempt {
  att_doc : Document;
  att_dense : Exn + DenseVec;
  att_sparse : Exn + SparseVector;
}.

(** The chunks whose embeddings were computed, paired in order with the
    dense and the sparse computations of the trace. *)
Definition attempts (chunks : list Document) (tr : list Event) : list Attempt :=
  zip_with (λ doc c, mkAttempt doc (c.1.2) (sparse_result (c.2.2)))
    chunks (zip (dense_calls tr) (sparse_calls tr)).

Definition both_ok (a : Attempt) : bool :=
  is_ok (att_dense a) && is_ok (att_sparse a).

(** The vectors and payload of the point an attempt gives rise to. *)
Definition attempt_point (a : Attempt) : option (NamedVectors * Payload) :=
  match att_dense a, att_sparse a with
  | inr d, inr sp =>
      Some (mkNamedVectors d sp,
            mkPayload (page_content (att_doc a)) (metadata (att_doc a)))
  | _, _ => None
  end.

Definition point_body (p : PointStruct) : NamedVectors * Payload :=
  (vector p, payload p).

(** The number of chunks for which at least one computation raised. *)
Definition failed_attempts (atts : list Attempt) : nat :=
  length (filter (λ a, both_ok a = false) atts).

(** [evs] holds exactly one dense and one sparse computation per chunk of
    [docs], each on the chunk's text and in the order of the chunks; [pts]
    are the points of the chunks whose two computations returned, and [k]
    counts the others. *)
Definition embeds (docs : list Document) (evs : list Event)
    (pts : list PointStruct) (k : nat) : Prop :=
  (dense_calls evs).*1 = page_content <$> docs ∧
  (sparse_calls evs).*1 = (λ doc, [page_content doc]) <$> docs ∧
  point_body <$> pts = omap attempt_point (attempts docs evs) ∧
  k = failed_attempts (attempts docs evs).

(** The state after one more log record. *)
Definition logged {Env} (s : State Env) (lvl : Level) (msg : string) : State Env :=
  mkState (env s) (log s ++ [mkLogRecord lvl msg]) (trace s).

(** *** What a filter means for a payload *)

(** [s] without the prefix [pre], when it has it. *)
Fixpoint strip_prefix (pre s : string) : option string :=
  match pre, s with
  | EmptyString, _ => Some s
  | String a pre', String b s' =>
      if Ascii.eqb a b then strip_prefix pre' s' else None
  | String _ _, EmptyString => None
  end.

(** The payload field a dotted key names. *)
Definition payload_field (k : string) (p : Payload) : option string :=
  if String.eqb k "content" then Some (content p)
  else match strip_prefix "metadata." k with
       | Some field => payload_metadata p !! field
       | None => None
       end.

Definition matches (c : FieldCondition) (p : Payload) : bool :=
  bool_decide (payload_field (key c) p = Some (match_value c)).

Definition satisfies (f : Filter) (p : Payload) : bool :=
  forallb (λ c, matches c p) (must f).

(** The contract of the vector store that the searches rely on: a
    response holds only points that satisfy the filter of the request, and
    no more points than its limit. *)
Definition respects_filter {Env}
    (query_points : QueryRequest → Env → (Exn + QueryResponse) * Env) : Prop :=
  ∀ req e resp e' f,
    query_points req e = (inr resp, e') → query_filter req = Some f →
    Forall (λ p, satisfies f (sp_payload p) = true) (points resp).

Definition respects_limit {Env}
    (query_points : QueryRequest → Env → (Exn + QueryResponse) * Env) : Prop :=
  ∀ req e resp e' n,
    query_points req e = (inr resp, e') → limit req = Some n →
    Py.len (points resp) ≤ n.

(** The document identifier in the metadata of a returned point. *)
Definition doc_id (p : ScoredPoint) : option string :=
  payload_metadata (sp_payload p) !! "pdf_id".

(** What a [generate_response] call amounts to: format the prompt, invoke
    the model once, hand back what it produced or raised; [on_success] are
    the log records a successful call leaves, a failed one leaves none. *)
Definition responds {Env} (llm_invoke : string → Env → (Exn + string) * Env)
    (formatted : Exn + string) (on_success : list LogRecord)
    (s : State Env) (out : (Exn + string) * State Env) : Prop :=
  match formatted with
  | inl e => out = (inl e, s)
  | inr prompt =>
      let '(answer, e') := llm_invoke prompt (env s) in
      out = (answer,
             mkState e'
               (log s ++ if is_ok answer then on_success else [])
               (trace s ++ [EvInvoke prompt answer]))
  end.

(** Unfold the monadic operations of a service body. *)
Ltac run_service :=
  unfold bind, try_catch, call, call_total, lift, ret, raise,
    logger_info, logger_warning, logger_exception, logger_log;
  simpl.

(** ** An executable environment

    A small in-memory stand-in for the external services, used to run the
    services on concrete inputs. *)

Module Fixture.

Record Env : Type := mkEnv {
  uuids : nat;
  store : list (string * PointStruct);
}.

Definition embed_query (text : string) (e : Env) : (Exn + DenseVec) * Env :=
  (inr [Z.of_nat (String.length text)], e).

(** The sparse model raises on every request that holds the text [bad]. *)
Definition sparse_embed (bad : string) (texts : list string) (e : Env)
  : (Exn + list SparseEmbedding) * Env :=
  if bool_decide (bad ∈ texts) then
    (inl (ServiceError "sparse embedding failed"), e)
  else
    (inr ((λ t, mkSparseEmbedding [0] [Z.of_nat (String.length t)]) <$> texts), e).

Definition uuid4 (e : Env) : string * Env :=
  ("uuid-" +:+ pretty (uuids e), mkEnv (S (uuids e)) (store e)).

Definition upload_points (name : string) (pts : list PointStruct)
    (batch_size : Z) (e : Env) : (Exn + ()) * Env :=
  (inr (), mkEnv (uuids e) (store e ++ (pair name <$> pts))).

(** A vector store that cannot be reached. *)
Definition upload_refused (name : string) (pts : list PointStruct)
    (batch_size : Z) (e : Env) : (Exn + ()) * Env :=
  (inl (ServiceError "connection refused"), e).

Definition passes (req : QueryRequest) (p : string * PointStruct) : bool :=
  bool_decide (p.1 = collection_name req) &&
  match query_filter req with
  | Some f => satisfies f (payload p.2)
  | None => true
  end.

(** The store answers with the first points of the collection that pass
    the filter, ten when no limit is given; it refuses a negative limit. *)
Definition query_points (req : QueryRequest) (e : Env)
  : (Exn + QueryResponse) * Env :=
  let hits := filter (λ p, passes req p = true) (store e) in
  let n := match limit req with Some n => n | None => 10 end in
  if n <? 0 then (inl (ServiceError "limit must not be negative"), e)
  else
    (inr (mkQueryResponse
            (take (Z.to_nat n)
               ((λ p, mkScoredPoint (point_id p.2) 0 (payload p.2))
                  <$> hits))), e).

Definition rerank_docs (docs : list ScoredPoint) (q : string) (e : Env)
  : (Exn + list ScoredPoint) * Env :=
  (inr (reverse docs), e).

Definition llm_invoke (prompt : string) (e : Env) : (Exn + string) * Env :=
  (inr ("Answer: " +:+ prompt), e).

(** A language model that cannot be reached. *)
Definition llm_down (prompt : string) (e : Env) : (Exn + string) * Env :=
  (inl (ServiceError "model unavailable"), e).

Definition str_format (template question context : string) : Exn + string :=
  inr (template +:+ " | " +:+ question +:+ " | " +:+ context).

Definition retriever_invoke (r : HyDE.Retriever) (q : string) (e : Env)
  : (Exn + list Document) * Env :=
  (inr [], e).

Definition init : State Env := mkState (mkEnv 0 []) [] [].

(** 130 chunks of the document ["doc-42"], numbered from 1. *)
Definition chunks130 : list Document :=
  (λ k : nat, mkDocument ("chunk " +:+ pretty k) {[ "pdf_id" := "doc-42" ]})
    <$> seq 1 130.

(** Indexing [chunks130] in batches of 64 when the sparse embedding of
    the chunk with text [bad], and of no other chunk, raises. *)
Definition run130 (bad : string) : (Exn + bool) * State Env :=
  Hybrid.index_hybrid_collection embed_query (sparse_embed bad)
    uuid4 upload_points chunks130 "brain" 64 init.

(** The same call up to the [return], for the value of [invalid_chunks]. *)
Definition loop130 (bad : string) : (Exn + Z) * State Env :=
  Hybrid.index_loop embed_query (sparse_embed bad)
    uuid4 upload_points chunks130 "brain" 64
    (logged init INFO
       "Indexing 130 documents into Qdrant Hybrid Collection.").

(** The sizes of the batches of [chunks130] and of the uploads of a run. *)
Definition batch_sizes130 : list nat :=
  match Hybrid.batched_chunks chunks130 64 with
  | inr batches => length <$> batches
  | inl _ => []
  end.

Definition upload_sizes130 (bad : string) : list nat :=
  length <$> (upload_calls (trace (run130 bad).2)).*1.

(** The scenario as the specification tells it: batches of 64, 65 and 1
    chunks, of which 64, 64 and 1 are uploaded. *)
Definition scenario_as_told (bad : string) : Prop :=
  batch_sizes130 = [64; 65; 1]%nat ∧
  upload_sizes130 bad = [64; 64; 1]%nat ∧
  (loop130 bad).1 = inr 1 ∧
  (run130 bad).1 = inr false.

(** A state in which five chunks of ["doc-42"] and one chunk of another
    document are indexed. *)
Definition indexed : State Env :=
  (Hybrid.index_hybrid_collection embed_query (sparse_embed "") uuid4
     upload_points
     (take 5 chunks130 ++ [mkDocument "other" {[ "pdf_id" := "doc-7" ]}])
     "brain" 64 init).2.

End Fixture.


(** ** Further notions *)

(** The identifiers drawn from [uuid.uuid4], in order. *)
Definition uuid_calls (tr : list Event) : list string :=
  omap (λ ev, match ev with EvUuid4 id => Some id | _ => None end) tr.

(** The arguments of the [upload_points] calls: collection, points and
    batch size. *)
Definition upload_requests (tr : list Event)
  : list (string * list PointStruct * Z) :=
  omap (λ ev, match ev with
              | EvUploadPoints name pts bs _ => Some (name, pts, bs)
              | _ => None
              end) tr.

#[global] Instance Level_eq_dec : EqDecision Level.
Proof. solve_decision. Defined.

(** The number of log records of a level. *)
Definition level_count (lvl : Level) (recs : list LogRecord) : nat :=
  length (filter (λ r, level r = lvl) recs).

(** The embedding computations of a trace that raised. *)
Definition raised_embeddings (tr : list Event) : nat :=
  (length (filter (λ c, is_ok c.2 = false) (dense_calls tr)) +
   length (filter (λ c, is_ok (sparse_result c.2) = false) (sparse_calls tr)))%nat.

(** The [upload_points] calls of a trace that raised. *)
Definition raised_uploads (tr : list Event) : nat :=
  length (filter (λ c, is_ok c.2 = false) (upload_calls tr)).

(** The warning for a skipped chunk, [i] being its number in the loop. *)
Definition skip_message (i : nat) : string :=
  "Skipping indexing for document " +:+ pretty i
    +:+ " due to failed embeddings.".

(** What the batch loop logs: one warning per skipped chunk, numbered
    below [bound]; one error per embedding computation that raised; one
    information record per upload that returned. *)
Definition loop_log (bound : nat → Prop) (k : nat) (evs : list Event)
    (recs : list LogRecord) : Prop :=
  level_count WARNING recs = k ∧
  level_count ERROR recs = raised_embeddings evs ∧
  (level_count INFO recs + raised_uploads evs)%nat = length (upload_calls evs) ∧
  Forall (λ r, level r = WARNING →
               ∃ i, bound i ∧ message r = skip_message i) recs.

(** What the batch loop hands to [upload_points]: the collection, the batch
    size of the call, and a list of points that is neither empty nor longer
    than a batch. *)
Definition well_batched (brain_id : string) (batch_size : Z)
    (u : string * list PointStruct * Z) : Prop :=
  u.1.1 = brain_id ∧ u.2 = batch_size ∧ u.1.2 ≠ [] ∧ Py.len u.1.2 ≤ batch_size.

(** The first log record of [index_hybrid_collection]. *)
Definition indexing_message (chunks : list Document) : string :=
  "Indexing " +:+ pretty (Py.len chunks)
    +:+ " documents into Qdrant Hybrid Collection.".

(** The exception a recorded call ended with; a sparse model that yields
    no embedding makes [create_sparse_vector] raise [IndexError]. *)
Definition event_failed (ev : Event) : option Exn :=
  match ev with
  | EvEmbedQuery _ (inl e) | EvUploadPoints _ _ _ (inl e)
  | EvQueryPoints _ (inl e) | EvRerankDocs _ _ (inl e)
  | EvInvoke _ (inl e) | EvRetrieverInvoke _ _ (inl e) => Some e
  | EvSparseEmbed _ r =>
      match sparse_result r with inl e => Some e | inr _ => None end
  | _ => None
  end.

(** [n] calls of the same operation in a row, with what each returned. *)
Fixpoint repeat_call {S A} (n : nat) (m : M S A) : M S (list A) :=
  match n with
  | O => ret []
  | S n =>
      let* a := m in
      let* rest := repeat_call n m in
      ret (a :: rest)
  end.

(** ** [HyDEService.index_collection] *)

Module HyDEStore.

(** A [HyDEService] object with the attribute [vector_store] that
    [index_collection] reads; [None] when it was never assigned. *)
Record Indexable (V : Type) : Type := mkIndexable {
  service : HyDE.HyDEService;
  vector_store : option V;
}.
Arguments mkIndexable {V} _ _.
Arguments service {V} _.
Arguments vector_store {V} _.

(** [HyDEService(client)]: [__init__] does not assign [vector_store]. *)
Definition constructed {V} (client : QdrantClient) : Indexable V :=
  {| service := HyDE.__init__ client; vector_store := None |}.

Definition no_vector_store_attribute : Exn :=
  AttributeError "'HyDEService' object has no attribute 'vector_store'".

(** An external call of which the trace keeps no event. *)
Definition call_untraced {Env A} (oracle : Env → (Exn + A) * Env)
  : M (State Env) A :=
  λ s, let '(r, e') := oracle (env s) in (r, mkState e' (log s) (trace s)).

Section Service.

Context {Env V : Type}.

(** [str(uuid4())] *)
Variable uuid4 : Env → string * Env.
(** [vector_store.add_documents(documents=, ids=)] *)
Variable add_documents :
  V → list Document → list string → Env → (Exn + list string) * Env.

Definition index_collection (self : Indexable V) (chunks : list Document)
  : M (State Env) () :=
  let* uuids := repeat_call (length chunks) (call_total uuid4 EvUuid4) in
  let* store :=
    match vector_store self with
    | Some v => ret v
    | None => raise no_vector_store_attribute
    end in
  call_untraced (add_documents store chunks uuids) >>
  ret ().

End Service.
End HyDEStore.

(** Two states with the same environment and the same trace of external
    calls; their logs may differ. *)
Definition same_io {Env} (s t : State Env) : Prop :=
  env s = env t ∧ trace s = trace t.

(** ** More concrete cases *)

Module Cases.

(** A manager whose attributes were assigned from outside: no client yet,
    a logger. *)
Definition ready : Manager.World :=
  Manager.mkWorld (Manager.mkManager (Some None) (Some "pipeline")) [] ∅ [].

(** The same manager without a logger. *)
Definition mute : Manager.World :=
  Manager.mkWorld (Manager.mkManager (Some None) None) [] ∅ [].

(** A manager that holds a client built for another URL. *)
Definition stale : Manager.World :=
  Manager.mkWorld
    (Manager.mkManager (Some (Some (mkQdrantClient 0 "http://old:6333")))
       (Some "pipeline"))
    [mkQdrantClient 0 "http://old:6333"] ∅ [].

Definition url : string := "http://qdrant:6333".

(** A vector store that keeps nothing and hands the identifiers back. *)
Definition add_documents (store : string) (docs : list Document)
    (ids : list string) (e : Fixture.Env) : (Exn + list string) * Fixture.Env :=
  (inr ids, e).

End Cases.

(** * Properties *)

(** ** Batching *)

Section Batching.
Context {A : Type}.
Implicit Types (l : list A) (b m k : nat).

Lemma range_len_from_zero (n bs : Z) :
  0 ≤ n → 0 < bs → Py.range_len 0 n bs = (n + bs - 1) `div` bs.
Proof.
  intros Hn Hbs. unfold Py.range_len.
  destruct (Z.ltb_spec 0 bs) as [_|]; [|lia].
  destruct (Z.ltb_spec 0 n) as [Hpos|Hz].
  - replace (n + bs - 1) with (n - 0 - 1 + 1 * bs) by lia.
    rewrite Z.div_add by lia. lia.
  - assert (n = 0) as -> by lia.
    symmetry. apply Z.div_small. lia.
Qed.

Lemma slice_window l (k : nat) (bs : Z) :
  0 < bs → Z.of_nat k * bs < Z.of_nat (length l) →
  Py.slice l (Z.of_nat k * bs) (Z.of_nat k * bs + bs)
  = take (Z.to_nat bs) (drop (k * Z.to_nat bs) l).
Proof.
  intros Hbs Hk. unfold Py.slice, Py.slice_index.
  destruct (Z.ltb_spec (Z.of_nat k * bs) 0) as [|_]; [lia|].
  destruct (Z.ltb_spec (Z.of_nat k * bs + bs) 0) as [|_]; [lia|].
  rewrite (Z.min_l (Z.of_nat k * bs)) by lia.
  replace (Z.to_nat (Z.of_nat k * bs)) with (k * Z.to_nat bs)%nat by lia.
  set (l' := drop (k * Z.to_nat bs) l).
  assert (length l' = (length l - k * Z.to_nat bs)%nat) as Hl'
    by apply length_drop.
  destruct (Z.min_spec (Z.of_nat k * bs + bs) (Z.of_nat (length l)))
    as [[Hlt ->]|[Hge ->]].
  - f_equal. lia.
  - rewrite !take_ge; [done|lia..].
Qed.

Lemma concat_windows b l m :
  concat (windows b l m) = take (m * b) l.
Proof.
  unfold windows. induction m as [|m IH].
  - by rewrite take_0.
  - rewrite seq_S, fmap_app, concat_app, IH. simpl.
    rewrite app_nil_r, take_take_drop. f_equal. lia.
Qed.

Lemma windows_lookup b l m j :
  (j < m)%nat → windows b l m !! j = Some (take b (drop (j * b) l)).
Proof.
  intros Hj. unfold windows. rewrite list_lookup_fmap, lookup_seq_lt by done.
  done.
Qed.

Lemma length_windows b l m : length (windows b l m) = m.
Proof. unfold windows. by rewrite length_fmap, length_seq. Qed.
End Batching.

Lemma batched_chunks_windows (chunks : list Document) (batch_size : Z) :
  0 < batch_size →
  Hybrid.batched_chunks chunks batch_size
  = inr (windows (Z.to_nat batch_size) chunks
           (Z.to_nat ((Py.len chunks + batch_size - 1) `div` batch_size))).
Proof.
  intros Hbs. unfold Hybrid.batched_chunks, Py.range, Py.len.
  destruct (Z.eqb_spec batch_size 0) as [|_]; [lia|].
  rewrite range_len_from_zero by lia.
  set (m := Z.to_nat _). f_equal. unfold windows.
  rewrite <- list_fmap_compose. apply list_fmap_ext.
  intros i k Hk. apply lookup_seq in Hk as [Hki Hlt].
  simpl in Hki. subst i. simpl.
  rewrite Z.add_0_l. apply slice_window; [done|].
  subst m.
  assert (0 ≤ (Z.of_nat (length chunks) + batch_size - 1) `div` batch_size)
    by (apply Z.div_pos; lia).
  assert (Z.of_nat k < (Z.of_nat (length chunks) + batch_size - 1) `div` batch_size)
    as Hk by lia.
  apply Z.lt_le_pred in Hk.
  assert (batch_size * Z.of_nat k ≤ Z.of_nat (length chunks) - 1); [|lia].
  pose proof (Z.mul_div_le (Z.of_nat (length chunks) + batch_size - 1) batch_size Hbs).
  nia.
Qed.

Lemma ceil_div_bounds (n bs : Z) :
  0 ≤ n → 0 < bs →
  let m := (n + bs - 1) `div` bs in
  0 ≤ m ∧ n ≤ m * bs ∧ (m - 1) * bs < n ∧ (0 < n → 0 < m) ∧
  m = n `div` bs + (if decide (n `mod` bs = 0) then 0 else 1).
Proof.
  intros Hn Hbs m.
  pose proof (Z.div_mod n bs ltac:(lia)) as Hdm.
  pose proof (Z.mod_pos_bound n bs Hbs) as Hmod.
  assert (m = n `div` bs + (if decide (n `mod` bs = 0) then 0 else 1)) as Hm.
  { subst m. case_decide as Hr.
    - rewrite Hr, Z.add_0_r in Hdm.
      replace (n + bs - 1) with (bs - 1 + (n `div` bs) * bs) by lia.
      rewrite Z.div_add by lia. rewrite Z.div_small by lia. lia.
    - replace (n + bs - 1) with (n `mod` bs - 1 + (n `div` bs + 1) * bs) by lia.
      rewrite Z.div_add by lia. rewrite Z.div_small by lia. lia. }
  assert (0 ≤ n `div` bs) by (apply Z.div_pos; lia).
  split_and!; [| | | |done]; rewrite Hm; case_decide; try nia.
Qed.

(** C2.  For every chunk list and every positive [batch_size], the batches
    built by [index_hybrid_collection] concatenate to the input, so the
    order is kept and every chunk is in exactly one batch: position [i] of
    batch [j] holds chunk [j * batch_size + i].  Every batch has
    [batch_size] chunks except the last, which has
    [len(chunks) mod batch_size] chunks, or [batch_size] when the length is
    evenly divisible. *)
Theorem batched_chunks_partition (chunks : list Document) (batch_size : Z) :
  0 < batch_size →
  ∃ batches : list (list Document),
    Hybrid.batched_chunks chunks batch_size = inr batches ∧
    concat batches = chunks ∧
    (∀ j i : nat, Z.of_nat i < batch_size →
       batches !! j ≫= (λ batch, batch !! i)
       = chunks !! (j * Z.to_nat batch_size + i)%nat) ∧
    (∀ (j : nat) batch, batches !! j = Some batch →
       Py.len batch =
         if decide (S j = length batches) then
           if decide (Py.len chunks `mod` batch_size = 0) then batch_size
           else Py.len chunks `mod` batch_size
         else batch_size).
Proof.
  intros Hbs. eexists. split; [by apply batched_chunks_windows|].
  set (b := Z.to_nat batch_size).
  set (m := Z.to_nat _).
  pose proof (ceil_div_bounds (Py.len chunks) batch_size
                ltac:(unfold Py.len; lia) Hbs) as (Hm0 & Hup & Hlo & Hpos & Hm).
  unfold Py.len in *.
  assert (Z.of_nat m = (Z.of_nat (length chunks) + batch_size - 1) `div` batch_size)
    as HmZ by (subst m; lia).
  rewrite <- HmZ in *. clearbody m.
  assert (Z.of_nat b = batch_size) as HbZ by (subst b; lia). clearbody b.
  subst batch_size.
  split_and!.
  - rewrite concat_windows. apply take_ge. nia.
  - intros j i Hi. destruct (decide (j < m)%nat) as [Hj|Hj].
    + rewrite windows_lookup by done. simpl.
      rewrite lookup_take_lt by lia. by rewrite lookup_drop.
    + rewrite (lookup_ge_None_2 (windows _ _ _)) by (rewrite length_windows; lia).
      simpl. symmetry. apply lookup_ge_None_2. nia.
  - intros j batch Hj. rewrite length_windows.
    assert (j < m)%nat as Hjm.
    { apply lookup_lt_Some in Hj. by rewrite length_windows in Hj. }
    rewrite windows_lookup in Hj by done. injection Hj as <-.
    rewrite length_take, length_drop.
    pose proof (Z.div_mod (Z.of_nat (length chunks)) (Z.of_nat b) ltac:(lia)).
    pose proof (Z.mod_pos_bound (Z.of_nat (length chunks)) (Z.of_nat b) Hbs).
    repeat case_decide; nia.
Qed.

(** ** Indexing *)

Lemma docs_run_app docs1 evs1 pts1 k1 docs2 evs2 pts2 k2 :
  docs_run docs1 evs1 pts1 k1 → docs_run docs2 evs2 pts2 k2 →
  docs_run (docs1 ++ docs2) (evs1 ++ evs2) (pts1 ++ pts2) (k1 + k2).
Proof.
  induction 1; intros H2; simpl; [done|..].
  - by apply docs_run_point; [|apply IHdocs_run].
  - by apply docs_run_skip; [|apply IHdocs_run].
Qed.

Section IndexingRuns.
Context {Env : Type}.
Variable embed_query : string → Env → (Exn + DenseVec) * Env.
Variable sparse_embed : list string → Env → (Exn + list SparseEmbedding) * Env.
Variable uuid4 : Env → string * Env.
Variable upload_points :
  string → list PointStruct → Z → Env → (Exn + ()) * Env.

Local Abbreviation index_doc := (Hybrid.index_doc embed_query sparse_embed uuid4).
Local Abbreviation index_docs := (Hybrid.index_docs embed_query sparse_embed uuid4).
Local Abbreviation index_batch :=
  (Hybrid.index_batch embed_query sparse_embed uuid4 upload_points).
Local Abbreviation index_batches :=
  (Hybrid.index_batches embed_query sparse_embed uuid4 upload_points).
Local Abbreviation index_loop :=
  (Hybrid.index_loop embed_query sparse_embed uuid4 upload_points).
Local Abbreviation index_hybrid_collection :=
  (Hybrid.index_hybrid_collection embed_query sparse_embed uuid4 upload_points).

Lemma index_doc_run i doc pts inv (s : State Env) :
  ∃ evs new k s',
    index_doc i doc pts inv s = (inr (pts ++ new, inv + Z.of_nat k), s') ∧
    trace s' = trace s ++ evs ∧
    docs_run [doc] evs new k.
Proof.
  unfold Hybrid.index_doc, Hybrid.create_dense_vector,
    Hybrid.create_sparse_vector, bind, try_catch, call, call_total,
    ret, raise, logger_exception, logger_warning, logger_log.
  simpl.
  destruct (embed_query (page_content doc) (env s)) as [[e|d] e1] eqn:Hd; simpl.
  - destruct (sparse_embed [page_content doc] e1) as [[e'|[|x xs]] e2] eqn:Hs;
      simpl; eexists _, [], 1%nat, _; rewrite app_nil_r;
      (split; [reflexivity|]); simpl; rewrite <- app_assoc; simpl;
      (split; [reflexivity|]); by apply docs_run_skip; [|constructor].
  - destruct (sparse_embed [page_content doc] e1) as [[e'|[|x xs]] e2] eqn:Hs;
      simpl.
    + eexists _, [], 1%nat, _; rewrite app_nil_r;
      (split; [reflexivity|]); simpl; rewrite <- app_assoc; simpl;
      (split; [reflexivity|]); by apply docs_run_skip; [|constructor].
    + eexists _, [], 1%nat, _; rewrite app_nil_r;
      (split; [reflexivity|]); simpl; rewrite <- app_assoc; simpl;
      (split; [reflexivity|]); by apply docs_run_skip; [|constructor].
    + destruct (uuid4 e2) as [id e3] eqn:Hu. simpl.
      eexists _, [_], 0%nat, _. rewrite Z.add_0_r.
      split; [reflexivity|]. simpl. rewrite <- !app_assoc. simpl.
      split; [reflexivity|]. by eapply docs_run_point; [|constructor].
Qed.

Lemma index_docs_run (batch : list (nat * Document)) pts inv (s : State Env) :
  ∃ evs new k s',
    index_docs batch pts inv s = (inr (pts ++ new, inv + Z.of_nat k), s') ∧
    trace s' = trace s ++ evs ∧
    docs_run (batch.*2) evs new k.
Proof.
  revert pts inv s. induction batch as [|[i doc] batch IH]; intros pts inv s.
  - exists [], [], 0%nat, s. simpl. rewrite !app_nil_r, Z.add_0_r.
    split_and!; [done..|constructor].
  - simpl. unfold bind at 1.
    destruct (index_doc_run i doc pts inv s) as (evs1 & new1 & k1 & s1 & -> & Htr1 & Hrun1).
    destruct (IH (pts ++ new1) (inv + Z.of_nat k1) s1)
      as (evs2 & new2 & k2 & s2 & -> & Htr2 & Hrun2).
    exists (evs1 ++ evs2), (new1 ++ new2), (k1 + k2)%nat, s2.
    split_and!.
    + rewrite <- app_assoc, Nat2Z.inj_add, Z.add_assoc. done.
    + by rewrite Htr2, Htr1, app_assoc.
    + by apply (docs_run_app [doc]).
Qed.

Lemma enumerate_snd {A} (l : list A) : (Py.enumerate l).*2 = l.
Proof.
  unfold Py.enumerate. rewrite fmap_imap.
  induction l as [|x l IH] using rev_ind; [done|].
  rewrite imap_app. simpl. by rewrite IH.
Qed.

Lemma index_batches_run n_chunks brain_id batch_size batches inv (s : State Env) :
  ∃ evs n k ab s',
    index_batches n_chunks brain_id batch_size batches inv s
    = (match ab with None => inr (inv + Z.of_nat k) | Some e => inl e end, s') ∧
    trace s' = trace s ++ evs ∧
    batches_run brain_id batch_size batches evs n k ab.
Proof.
  revert inv s. induction batches as [|batch rest IH]; intros inv s.
  - exists [], 0%nat, 0%nat, None, s. simpl. rewrite app_nil_r, Z.add_0_r.
    split_and!; [done..|constructor].
  - simpl. unfold bind at 1. unfold Hybrid.index_batch. unfold bind at 1.
    destruct (index_docs_run (Py.enumerate batch) [] inv s)
      as (evs1 & pts & k1 & s1 & -> & Htr1 & Hrun1).
    rewrite enumerate_snd in Hrun1. simpl.
    case_bool_decide as Hpts.
    + unfold bind at 1. unfold bind at 1. unfold call.
      destruct (upload_points brain_id pts batch_size (env s1)) as [[e|[]] e1] eqn:Hup.
      * eexists _, 1%nat, k1, (Some e), _. split; [reflexivity|]. simpl.
        split; [by rewrite Htr1, <- app_assoc|].
        by apply batches_run_abort.
      * unfold logger_info, logger_log. simpl.
        match goal with |- context [index_batches _ _ _ rest ?i ?st] =>
          destruct (IH i st) as (evs2 & n2 & k2 & ab & s2 & -> & Htr2 & Hrun2) end.
        simpl in Htr2.
        exists (evs1 ++ EvUploadPoints brain_id pts batch_size (inr ()) :: evs2),
          (S n2), (k1 + k2)%nat, ab, s2.
        split_and!.
        -- destruct ab; [done|]. do 2 f_equal. lia.
        -- rewrite Htr2, Htr1, <- !app_assoc. done.
        -- by apply batches_run_upload.
    + subst pts.
      unfold bind at 1, ret at 1. unfold ret at 1.
      destruct (IH (inv + Z.of_nat k1) s1)
        as (evs2 & n2 & k2 & ab & s2 & -> & Htr2 & Hrun2).
      exists (evs1 ++ evs2), (S n2), (k1 + k2)%nat, ab, s2.
      split_and!.
      -- destruct ab; [done|]. do 2 f_equal. lia.
      -- by rewrite Htr2, Htr1, app_assoc.
      -- by apply batches_run_quiet.
Qed.
End IndexingRuns.

Lemma dense_calls_app tr1 tr2 :
  dense_calls (tr1 ++ tr2) = dense_calls tr1 ++ dense_calls tr2.
Proof. apply omap_app. Qed.
Lemma sparse_calls_app tr1 tr2 :
  sparse_calls (tr1 ++ tr2) = sparse_calls tr1 ++ sparse_calls tr2.
Proof. apply omap_app. Qed.
Lemma upload_calls_app tr1 tr2 :
  upload_calls (tr1 ++ tr2) = upload_calls tr1 ++ upload_calls tr2.
Proof. apply omap_app. Qed.
Lemma submitted_app tr1 tr2 :
  submitted (tr1 ++ tr2) = submitted tr1 ++ submitted tr2.
Proof.
  unfold submitted. by rewrite upload_calls_app, fmap_app, concat_app.
Qed.
Lemma stored_app tr1 tr2 : stored (tr1 ++ tr2) = stored tr1 ++ stored tr2.
Proof.
  unfold stored. by rewrite upload_calls_app, filter_app, fmap_app, concat_app.
Qed.

Lemma attempts_app docs1 docs2 evs1 evs2 :
  length (dense_calls evs1) = length docs1 →
  length (sparse_calls evs1) = length docs1 →
  attempts (docs1 ++ docs2) (evs1 ++ evs2)
  = attempts docs1 evs1 ++ attempts docs2 evs2.
Proof.
  intros Hd Hs. unfold attempts.
  rewrite dense_calls_app, sparse_calls_app.
  rewrite (zip_with_app pair (dense_calls evs1)) by congruence.
  apply zip_with_app. rewrite length_zip_with. lia.
Qed.

Lemma embeds_lengths docs evs pts k :
  embeds docs evs pts k →
  length (dense_calls evs) = length docs ∧
  length (sparse_calls evs) = length docs.
Proof.
  intros (Hd & Hs & _). split.
  - by rewrite <- (length_fmap fst), Hd, length_fmap.
  - by rewrite <- (length_fmap fst), Hs, length_fmap.
Qed.

Lemma embeds_app docs1 evs1 pts1 k1 docs2 evs2 pts2 k2 :
  embeds docs1 evs1 pts1 k1 → embeds docs2 evs2 pts2 k2 →
  embeds (docs1 ++ docs2) (evs1 ++ evs2) (pts1 ++ pts2) (k1 + k2).
Proof.
  intros H1 H2. destruct (embeds_lengths _ _ _ _ H1) as [Hld Hls].
  destruct H1 as (Hd1 & Hs1 & Hp1 & ->), H2 as (Hd2 & Hs2 & Hp2 & ->).
  unfold embeds. rewrite attempts_app by done.
  rewrite dense_calls_app, sparse_calls_app, !fmap_app, omap_app.
  unfold failed_attempts. rewrite filter_app, length_app.
  by rewrite Hd1, Hd2, Hs1, Hs2, Hp1, Hp2.
Qed.

Lemma embeds_nil : embeds [] [] [] 0.
Proof. done. Qed.

Lemma docs_run_embeds docs evs pts k :
  docs_run docs evs pts k → embeds docs evs pts k ∧ upload_calls evs = [].
Proof.
  induction 1 as [|doc d r sp id docs evs pts k Hsp _ [IH IHu]
                   |doc d r docs evs pts k Hfail _ [IH IHu]].
  - done.
  - split; [|done].
    apply (embeds_app [doc] [_; _; _] [_] 0 docs evs pts k); [|done].
    unfold embeds, attempts, failed_attempts, attempt_point, both_ok. simpl.
    rewrite Hsp. done.
  - split; [|done].
    apply (embeds_app [doc] [_; _] [] 1 docs evs pts k); [|done].
    unfold embeds, attempts, failed_attempts, attempt_point, both_ok. simpl.
    rewrite filter_cons_True by done.
    split_and!; [done..| |done].
    destruct d, (sparse_result r); done.
Qed.

Lemma uploads_ok_stored tr : uploads_ok tr → stored tr = submitted tr.
Proof.
  unfold uploads_ok, stored, submitted. generalize (upload_calls tr).
  induction 1 as [|c cs Hc _ IH]; [done|].
  rewrite filter_cons_True by done. rewrite !fmap_cons. simpl. by f_equal.
Qed.

Lemma uploads_ok_app tr1 tr2 :
  uploads_ok (tr1 ++ tr2) ↔ uploads_ok tr1 ∧ uploads_ok tr2.
Proof. unfold uploads_ok. rewrite upload_calls_app. apply Forall_app. Qed.

Lemma embeds_upload docs evs pts k name up bs r :
  embeds docs evs pts k → embeds docs (evs ++ [EvUploadPoints name up bs r]) pts k.
Proof.
  intros H.
  pose proof (embeds_app docs evs pts k [] [EvUploadPoints name up bs r] [] 0 H)
    as H'.
  rewrite !app_nil_r, Nat.add_0_r in H'. by apply H'.
Qed.

Lemma batches_run_embeds brain_id batch_size batches evs n k ab :
  batches_run brain_id batch_size batches evs n k ab →
  (n ≤ length batches)%nat ∧
  embeds (concat (take n batches)) evs (submitted evs) k ∧
  match ab with
  | None => n = length batches ∧ uploads_ok evs
  | Some e =>
      ∃ pre pts, evs = pre ++ [EvUploadPoints brain_id pts batch_size (inl e)]
                 ∧ uploads_ok pre
  end.
Proof.
  induction 1 as [|batch evs k rest evs' n k' ab Hdocs _ (Hn & IH & Hab)
                  |batch evs pts k rest evs' n k' ab Hdocs Hne _ (Hn & IH & Hab)
                  |batch evs pts k rest e Hdocs Hne].
  - split_and!; [done|apply embeds_nil|done|constructor].
  - apply docs_run_embeds in Hdocs as [Hb Hup].
    assert (submitted evs = []) as Hsub by (unfold submitted; by rewrite Hup).
    assert (uploads_ok evs) as Hok by (unfold uploads_ok; by rewrite Hup).
    simpl. split; [lia|]. split.
    + rewrite submitted_app, Hsub. by apply embeds_app.
    + destruct ab as [e|].
      * destruct Hab as (pre & pts & -> & Hpre).
        exists (evs ++ pre), pts. rewrite app_assoc. split; [done|].
        by apply uploads_ok_app.
      * destruct Hab as [-> Hok']. split; [done|]. by apply uploads_ok_app.
  - apply docs_run_embeds in Hdocs as [Hb Hup].
    assert (submitted evs = []) as Hsub by (unfold submitted; by rewrite Hup).
    assert (uploads_ok evs) as Hok by (unfold uploads_ok; by rewrite Hup).
    set (U := EvUploadPoints brain_id pts batch_size (inr ())).
    assert (uploads_ok (evs ++ [U])) as HokU.
    { apply uploads_ok_app. split; [done|]. by repeat constructor. }
    replace (evs ++ U :: evs') with ((evs ++ [U]) ++ evs')
      by (by rewrite <- app_assoc).
    simpl. split; [lia|]. split.
    + rewrite !submitted_app, Hsub. simpl.
      replace (submitted [U]) with pts by (unfold submitted; simpl; by rewrite app_nil_r).
      apply embeds_app; [|done]. by apply embeds_upload.
    + destruct ab as [e|].
      * destruct Hab as (pre & pts' & -> & Hpre).
        exists ((evs ++ [U]) ++ pre), pts'. rewrite app_assoc. split; [done|].
        by apply uploads_ok_app.
      * destruct Hab as [-> Hok']. split; [done|]. by apply uploads_ok_app.
  - apply docs_run_embeds in Hdocs as [Hb Hup].
    assert (submitted evs = []) as Hsub by (unfold submitted; by rewrite Hup).
    assert (uploads_ok evs) as Hok by (unfold uploads_ok; by rewrite Hup).
    simpl. split; [lia|]. split.
    + rewrite app_nil_r.
      rewrite submitted_app, Hsub. simpl.
      replace (submitted [_]) with pts by (unfold submitted; simpl; by rewrite app_nil_r).
      by apply embeds_upload.
    + by exists evs, pts.
Qed.

Lemma attempts_more docs more evs :
  length (dense_calls evs) = length docs →
  length (sparse_calls evs) = length docs →
  attempts (docs ++ more) evs = attempts docs evs.
Proof.
  intros Hd Hs.
  rewrite <- (app_nil_r evs) at 1. rewrite attempts_app by done.
  unfold attempts at 2. simpl. rewrite zip_with_nil_r. apply app_nil_r.
Qed.

Lemma attempts_docs docs evs :
  length (dense_calls evs) = length docs →
  length (sparse_calls evs) = length docs →
  att_doc <$> attempts docs evs = docs.
Proof.
  intros Hd Hs. unfold attempts.
  rewrite fmap_zip_with_l; [done|done|].
  rewrite length_zip_with. lia.
Qed.

Lemma batched_chunks_concat chunks batch_size batches :
  Hybrid.batched_chunks chunks batch_size = inr batches →
  ∃ more, chunks = concat batches ++ more ∧ (0 < batch_size → more = []).
Proof.
  intros Hb. destruct (decide (0 < batch_size)) as [Hpos|Hneg].
  - rewrite batched_chunks_windows in Hb by done. injection Hb as <-.
    exists []. split; [|done].
    rewrite app_nil_r, concat_windows. symmetry. apply take_ge.
    pose proof (ceil_div_bounds (Py.len chunks) batch_size
                  ltac:(unfold Py.len; lia) Hpos) as (? & ? & _).
    unfold Py.len in *. nia.
  - exists chunks. split; [|done].
    unfold Hybrid.batched_chunks, Py.range, Py.range_len in Hb.
    destruct (Z.eqb_spec batch_size 0); [done|].
    destruct (Z.ltb_spec 0 batch_size); [done|].
    destruct (Z.ltb_spec (Py.len chunks) 0); [unfold Py.len in *; lia|].
    by injection Hb as <-.
Qed.

Section IndexingCalls.
Context {Env : Type}.
Variable embed_query : string → Env → (Exn + DenseVec) * Env.
Variable sparse_embed : list string → Env → (Exn + list SparseEmbedding) * Env.
Variable uuid4 : Env → string * Env.
Variable upload_points :
  string → list PointStruct → Z → Env → (Exn + ()) * Env.

Local Abbreviation index_loop :=
  (Hybrid.index_loop embed_query sparse_embed uuid4 upload_points).
Local Abbreviation index_hybrid_collection :=
  (Hybrid.index_hybrid_collection embed_query sparse_embed uuid4 upload_points).

Lemma index_hybrid_collection_unfold chunks brain_id batch_size (s : State Env) :
  index_hybrid_collection chunks brain_id batch_size s =
    match
      index_loop chunks brain_id batch_size
        (logged s INFO
           ("Indexing " +:+ pretty (Py.len chunks)
              +:+ " documents into Qdrant Hybrid Collection."))
    with
    | (inr invalid_chunks, s1) => (inr (invalid_chunks =? 0), s1)
    | (inl e, s1) =>
        (inr false,
         logged s1 ERROR
           ("Error occurred during batch indexing: " +:+ exn_str e))
    end.
Proof.
  unfold Hybrid.index_hybrid_collection, bind, try_catch, logger_info,
    logger_exception, logger_log, ret, logged. simpl.
  by destruct (index_loop _ _ _ _) as [[e|n] s1].
Qed.

Lemma index_loop_run chunks brain_id batch_size (s : State Env) :
  ∃ new r s',
    index_loop chunks brain_id batch_size s = (r, s') ∧
    trace s' = trace s ++ new ∧
    let atts := attempts chunks new in
    (dense_calls new).*1 = (λ a, page_content (att_doc a)) <$> atts ∧
    (sparse_calls new).*1 = (λ a, [page_content (att_doc a)]) <$> atts ∧
    att_doc <$> atts `prefix_of` chunks ∧
    point_body <$> submitted new = omap attempt_point atts ∧
    match r with
    | inr invalid_chunks =>
        invalid_chunks = Z.of_nat (failed_attempts atts) ∧
        uploads_ok new ∧ batch_size ≠ 0 ∧
        (0 < batch_size → att_doc <$> atts = chunks)
    | inl e =>
        (batch_size = 0 ∧ new = []) ∨
        (∃ pre pts,
            new = pre ++ [EvUploadPoints brain_id pts batch_size (inl e)] ∧
            uploads_ok pre)
    end.
Proof.
  unfold Hybrid.index_loop, bind, lift.
  destruct (Hybrid.batched_chunks chunks batch_size) as [e|batches] eqn:Hb.
  - exists [], (inl e), s. rewrite app_nil_r.
    assert (attempts chunks [] = []) as -> by apply zip_with_nil_r.
    split_and!; try done; [by apply prefix_nil|].
    left. split; [|done].
    unfold Hybrid.batched_chunks, Py.range in Hb.
    by destruct (Z.eqb_spec batch_size 0).
  - destruct (index_batches_run embed_query sparse_embed uuid4 upload_points
                (Py.len chunks) brain_id batch_size batches 0 s)
      as (new & n & k & ab & s' & Hrun & Htr & Hbr).
    apply batches_run_embeds in Hbr as (Hn & Hemb & Hab).
    destruct (batched_chunks_concat _ _ _ Hb) as (more & Hchunks & Hmore).
    destruct (embeds_lengths _ _ _ _ Hemb) as [Hld Hls].
    assert (∃ more', chunks = concat (take n batches) ++ more' ∧
              (n = length batches → more' = more)) as (more' & Hch' & Hmore').
    { exists (concat (drop n batches) ++ more). split.
      - by rewrite app_assoc, <- concat_app, take_drop.
      - intros ->. by rewrite drop_all. }
    assert (attempts chunks new = attempts (concat (take n batches)) new) as Hatt.
    { rewrite Hch' at 1. by apply attempts_more. }
    assert (att_doc <$> attempts chunks new = concat (take n batches)) as Hdocs.
    { rewrite Hatt. by apply attempts_docs. }
    destruct Hemb as (Hd & Hs & Hp & Hk).
    exists new, (match ab with Some e => inl e | None => inr (0 + Z.of_nat k) end), s'.
    split; [done|]. split; [done|]. simpl.
    rewrite Hatt in *.
    split_and!.
    + rewrite Hd. rewrite <- Hdocs at 1. by rewrite <- list_fmap_compose.
    + rewrite Hs. rewrite <- Hdocs at 1. by rewrite <- list_fmap_compose.
    + rewrite Hdocs, Hch'. by apply prefix_app_r.
    + done.
    + destruct ab as [e|].
      * right. done.
      * destruct Hab as [Hnb Hok]. split_and!; [lia|done| |].
        -- intros ->. unfold Hybrid.batched_chunks, Py.range in Hb.
           by destruct (Z.eqb_spec 0 0).
        -- intros Hpos. rewrite Hdocs, Hch', (Hmore' Hnb), (Hmore Hpos).
           by rewrite app_nil_r.
Qed.

Lemma attempt_point_both_ok (a : Attempt) :
  is_Some (attempt_point a) ↔ both_ok a = true.
Proof.
  unfold attempt_point, both_ok.
  destruct (att_dense a), (att_sparse a); simpl; split;
    (done || by intros [? ?] || by eexists).
Qed.

End IndexingCalls.

Lemma stored_upload_failed name pts bs e :
  stored [EvUploadPoints name pts bs (inl e)] = [].
Proof. done. Qed.

Lemma no_failed_attempts atts :
  failed_attempts atts = 0%nat →
  Forall (λ a, both_ok a = true) atts ∧
  length (omap attempt_point atts) = length atts.
Proof.
  unfold failed_attempts. induction atts as [|a atts IH]; [done|].
  destruct (both_ok a) eqn:Ha.
  - rewrite filter_cons_False by (by rewrite Ha). intros Hn.
    destruct (IH Hn) as [Hall Hlen]. split; [by constructor|].
    simpl. unfold attempt_point, both_ok in *.
    destruct (att_dense a), (att_sparse a); try done. simpl. by f_equal.
  - rewrite filter_cons_True by done. done.
Qed.

Section IndexingOutcome.
Context {Env : Type}.
Variable embed_query : string → Env → (Exn + DenseVec) * Env.
Variable sparse_embed : list string → Env → (Exn + list SparseEmbedding) * Env.
Variable uuid4 : Env → string * Env.
Variable upload_points :
  string → list PointStruct → Z → Env → (Exn + ()) * Env.

Local Abbreviation index_loop :=
  (Hybrid.index_loop embed_query sparse_embed uuid4 upload_points).
Local Abbreviation index_hybrid_collection :=
  (Hybrid.index_hybrid_collection embed_query sparse_embed uuid4 upload_points).

(** Whatever the run, the stored points are the first of the submitted
    ones; and over a positive batch size, when every upload returned, the
    loop itself returned: every chunk was attempted and the count is that
    of the failed attempts. *)
Lemma index_loop_outcome chunks brain_id batch_size (s : State Env) :
  ∃ new r s',
    index_loop chunks brain_id batch_size s = (r, s') ∧
    trace s' = trace s ++ new ∧
    let atts := attempts chunks new in
    (dense_calls new).*1 = (λ a, page_content (att_doc a)) <$> atts ∧
    (sparse_calls new).*1 = (λ a, [page_content (att_doc a)]) <$> atts ∧
    att_doc <$> atts `prefix_of` chunks ∧
    point_body <$> submitted new = omap attempt_point atts ∧
    stored new `prefix_of` submitted new ∧
    (uploads_ok new → batch_size ≠ 0 →
       r = inr (Z.of_nat (failed_attempts atts)) ∧
       stored new = submitted new) ∧
    (uploads_ok new → 0 < batch_size → att_doc <$> atts = chunks) ∧
    (¬ uploads_ok new →
       ∃ pre pts e,
         r = inl e ∧
         new = pre ++ [EvUploadPoints brain_id pts batch_size (inl e)] ∧
         uploads_ok pre) ∧
    (batch_size = 0 → (∃ e, r = inl e) ∧ new = []) ∧
    (∀ n, r = inr n →
       n = Z.of_nat (failed_attempts atts) ∧ uploads_ok new ∧
       batch_size ≠ 0 ∧ (0 < batch_size → att_doc <$> atts = chunks)).
Proof.
  destruct (index_loop_run embed_query sparse_embed uuid4 upload_points
              chunks brain_id batch_size s)
    as (new & r & s' & Hrun & Htr & Hd & Hs & Hpre & Hpts & Hr).
  exists new, r, s'. split; [done|]. split; [done|]. simpl.
  split; [done|]. split; [done|]. split; [done|]. split; [done|].
  destruct r as [e|n].
  - destruct Hr as [[-> ->]|(pre & pts & -> & Hok)].
    + split_and!; [done|done|done| |by eauto|done].
      intros Hno. destruct Hno. constructor.
    + assert (¬ uploads_ok (pre ++ [EvUploadPoints brain_id pts batch_size (inl e)]))
        as Hnot.
      { intros Hall. apply uploads_ok_app in Hall as [_ Hall].
        by inversion Hall. }
      split_and!.
      * rewrite stored_app, submitted_app, stored_upload_failed, app_nil_r.
        rewrite (uploads_ok_stored pre Hok). by apply prefix_app_r.
      * intros Hall. by destruct Hnot.
      * intros Hall. by destruct Hnot.
      * intros _. by exists pre, pts, e.
      * intros ->. exfalso.
        (* a zero batch size makes [range] raise before any call *)
        unfold Hybrid.index_loop, bind, lift in Hrun. simpl in Hrun.
        injection Hrun as _ Hs'. rewrite <- Hs' in Htr.
        apply (f_equal length) in Htr. rewrite !length_app in Htr.
        simpl in Htr. lia.
      * done.
  - destruct Hr as (-> & Hok & Hnz & Hall).
    split_and!.
    + by rewrite (uploads_ok_stored new Hok).
    + intros _ _. split; [done|]. by apply uploads_ok_stored.
    + intros _. exact Hall.
    + intros Hnot. by destruct Hnot.
    + intros ->. done.
    + by intros ? [= <-].
Qed.

(** C1.  In every call of [index_hybrid_collection] the chunks that are
    reached are a prefix of the input and each has its dense and its
    sparse embedding computed once, on its own text.  The points handed to
    [upload_points] are, in order, exactly those of the chunks for which
    both computations returned, each with the two vectors computed for it
    and the text and metadata of its chunk; a chunk for which a
    computation raised gives no point; the points of the uploads that
    returned are the first of them.  Over a positive batch size, when
    every upload returned, every chunk was reached, the uploaded points
    are exactly those of the chunks whose two computations returned, and
    the loop ends with [invalid_chunks] the number of chunks for which at
    least one computation raised. *)
Theorem index_uploads_iff_both_embedded chunks brain_id batch_size
    (s : State Env) :
  ∃ new ret s',
    index_hybrid_collection chunks brain_id batch_size s = (inr ret, s') ∧
    trace s' = trace s ++ new ∧
    let atts := attempts chunks new in
    (dense_calls new).*1 = (λ a, page_content (att_doc a)) <$> atts ∧
    (sparse_calls new).*1 = (λ a, [page_content (att_doc a)]) <$> atts ∧
    att_doc <$> atts `prefix_of` chunks ∧
    point_body <$> submitted new = omap attempt_point atts ∧
    (∀ a, is_Some (attempt_point a) ↔ both_ok a = true) ∧
    stored new `prefix_of` submitted new ∧
    (0 < batch_size → uploads_ok new →
       att_doc <$> atts = chunks ∧
       point_body <$> stored new = omap attempt_point atts ∧
       ∃ s1,
         index_loop chunks brain_id batch_size
           (logged s INFO
              ("Indexing " +:+ pretty (Py.len chunks)
                 +:+ " documents into Qdrant Hybrid Collection."))
         = (inr (Z.of_nat (failed_attempts atts)), s1)) ∧
    (∀ invalid_chunks s1,
       index_loop chunks brain_id batch_size
         (logged s INFO
            ("Indexing " +:+ pretty (Py.len chunks)
               +:+ " documents into Qdrant Hybrid Collection."))
       = (inr invalid_chunks, s1) →
       invalid_chunks = Z.of_nat (failed_attempts atts) ∧
       stored new = submitted new ∧
       (0 < batch_size → att_doc <$> atts = chunks)).
Proof.
  rewrite index_hybrid_collection_unfold.
  set (s0 := logged s INFO _).
  destruct (index_loop_outcome chunks brain_id batch_size s0)
    as (new & r & s1 & Hrun & Htr & Hd & Hs & Hpre & Hpts & Hst & Hok & Hall
        & Hnot & Hzero & Hret).
  rewrite Hrun. exists new.
  assert (∃ ret s', (match r with
                     | inl e =>
                         (inr false,
                          logged s1 ERROR
                            ("Error occurred during batch indexing: "
                               +:+ exn_str e))
                     | inr n => (inr (n =? 0), s1)
                     end : (Exn + bool) * State Env) = (inr ret, s')
                    ∧ trace s' = trace s ++ new) as (ret & s' & -> & Htr').
  { destruct r; eexists _, _; split; try reflexivity; exact Htr. }
  exists ret, s'. split; [done|]. split; [done|]. simpl.
  split; [done|]. split; [done|]. split; [done|]. split; [done|].
  split; [apply attempt_point_both_ok|]. split; [done|]. split.
  - intros Hbs Hup. destruct (Hok Hup ltac:(lia)) as [-> Heq].
    split; [by apply Hall|]. split; [by rewrite Heq|]. by exists s1.
  - intros n s2 [= -> ->].
    destruct (Hret n eq_refl) as (-> & Hup & _ & Hcov).
    split_and!; [done| |done]. by apply uploads_ok_stored.
Qed.

(** C3.  [index_hybrid_collection] returns [True] exactly when no chunk
    was skipped and no exception escaped the batch loop, that is every
    upload returned and the batch size is not zero; it returns [False] as
    soon as one chunk was skipped.  Over a positive batch size, when every
    upload returned, every chunk was reached and the value is [True]
    exactly when none of them was skipped; so [True] means that every
    chunk was embedded twice and uploaded.  When an upload raises, or the
    batch size is zero, the call returns [False] for the whole call, all
    that is done after the exception is to log it, and the upload that
    raised is the last external call of the run (for a zero batch size no
    call is made at all): no later batch is processed. *)
Theorem index_returns_true_iff_all_indexed chunks brain_id batch_size
    (s : State Env) :
  ∃ new ret s',
    index_hybrid_collection chunks brain_id batch_size s = (inr ret, s') ∧
    trace s' = trace s ++ new ∧
    let atts := attempts chunks new in
    (ret = true ↔
       failed_attempts atts = 0%nat ∧ uploads_ok new ∧ batch_size ≠ 0) ∧
    (failed_attempts atts ≠ 0%nat → ret = false) ∧
    (0 < batch_size → uploads_ok new →
       att_doc <$> atts = chunks ∧
       stored new = submitted new ∧
       ret = bool_decide (failed_attempts atts = 0%nat)) ∧
    (0 < batch_size → ret = true →
       att_doc <$> atts = chunks ∧
       Forall (λ a, both_ok a = true) atts ∧
       point_body <$> stored new = omap attempt_point atts ∧
       length (stored new) = length chunks) ∧
    (¬ uploads_ok new →
       ret = false ∧
       ∃ pre pts e,
         new = pre ++ [EvUploadPoints brain_id pts batch_size (inl e)] ∧
         uploads_ok pre ∧
         s' = logged
                (index_loop chunks brain_id batch_size
                   (logged s INFO
                      ("Indexing " +:+ pretty (Py.len chunks)
                         +:+ " documents into Qdrant Hybrid Collection."))).2
                ERROR
                ("Error occurred during batch indexing: " +:+ exn_str e)) ∧
    (batch_size = 0 → ret = false ∧ new = []) ∧
    (∀ e s1,
       index_loop chunks brain_id batch_size
         (logged s INFO
            ("Indexing " +:+ pretty (Py.len chunks)
               +:+ " documents into Qdrant Hybrid Collection."))
       = (inl e, s1) →
       ret = false ∧
       s' = logged s1 ERROR
              ("Error occurred during batch indexing: " +:+ exn_str e) ∧
       ((batch_size = 0 ∧ new = []) ∨
        (∃ pre pts,
            new = pre ++ [EvUploadPoints brain_id pts batch_size (inl e)] ∧
            uploads_ok pre))).
Proof.
  rewrite index_hybrid_collection_unfold.
  set (s0 := logged s INFO _).
  destruct (index_loop_outcome chunks brain_id batch_size s0)
    as (new & r & s1 & Hrun & Htr & Hd & Hs & Hpre & Hpts & Hst & Hok & Hall
        & Hnot & Hzero & Hret).
  rewrite Hrun. exists new. destruct r as [e|n].
  - eexists _, _. split; [reflexivity|]. split; [exact Htr|]. simpl.
    assert (¬ (uploads_ok new ∧ batch_size ≠ 0)) as Hbad.
    { intros [Hup Hnz]. by destruct (Hok Hup Hnz) as [? _]. }
    split_and!.
    + split; [done|]. intros (_ & Hup & Hnz). by destruct Hbad.
    + done.
    + intros Hbs Hup. destruct Hbad. split; [done|lia].
    + done.
    + intros Hn. split; [done|].
      destruct (Hnot Hn) as (pre & pts & e' & [= <-] & -> & Hpreok).
      by exists pre, pts, e.
    + intros Hz. split; [done|]. by apply Hzero.
    + intros e' s2 [= <- <-]. split; [done|]. split; [done|].
      destruct (decide (batch_size = 0)) as [Hz|Hnz].
      * left. split; [done|]. by apply Hzero.
      * right. assert (¬ uploads_ok new) as Hn.
        { intros Hup. by destruct (Hok Hup Hnz) as [? _]. }
        destruct (Hnot Hn) as (pre & pts & e' & [= <-] & -> & Hpreok).
        by exists pre, pts.
  - destruct (Hret n eq_refl) as (-> & Hup & Hnz & Hcov).
    pose proof (uploads_ok_stored new Hup) as Hsto.
    eexists _, _. split; [reflexivity|]. split; [exact Htr|]. simpl.
    split_and!.
    + rewrite Z.eqb_eq. split; [intros ?; split_and!; [lia|done..]|].
      intros (-> & _). done.
    + intros Hne. apply Z.eqb_neq. lia.
    + intros Hbs _. split; [by apply Hcov|]. split; [done|].
      case_bool_decide as Hf.
      * rewrite Hf. done.
      * apply Z.eqb_neq. lia.
    + intros Hbs Htrue. apply Z.eqb_eq in Htrue.
      assert (failed_attempts (attempts chunks new) = 0%nat) as Hf by lia.
      destruct (no_failed_attempts _ Hf) as [Hboth Hlen].
      split; [by apply Hcov|]. split; [done|]. rewrite Hsto.
      split; [done|].
      rewrite <- (length_fmap point_body), Hpts, Hlen.
      rewrite <- (length_fmap att_doc). by rewrite (Hcov Hbs).
    + intros Hn. by destruct Hn.
    + intros Hz. by destruct Hnz.
    + intros e s2 [=].
Qed.

End IndexingOutcome.

(** ** Searching *)

Lemma satisfies_pdf_id_filter pdf_id (p : Payload) :
  satisfies (pdf_id_filter pdf_id) p = true ↔
  payload_metadata p !! "pdf_id" = Some pdf_id.
Proof.
  unfold satisfies, pdf_id_filter, matches, payload_field. simpl.
  rewrite andb_true_r. apply bool_decide_eq_true.
Qed.

Lemma filtered_points_doc_id {Env}
    (query_points : QueryRequest → Env → (Exn + QueryResponse) * Env)
    req e resp e' pdf_id :
  respects_filter query_points →
  query_points req e = (inr resp, e') →
  query_filter req = Some (pdf_id_filter pdf_id) →
  Forall (λ p, doc_id p = Some pdf_id) (points resp).
Proof.
  intros Hf Hq Hreq. eapply Forall_impl; [by eapply Hf|].
  intros p Hp. by apply satisfies_pdf_id_filter.
Qed.

Section Search.
Context {Env : Type}.
Variable embed_query : string → Env → (Exn + DenseVec) * Env.
Variable sparse_embed : list string → Env → (Exn + list SparseEmbedding) * Env.
Variable query_points : QueryRequest → Env → (Exn + QueryResponse) * Env.
Variable rerank_docs :
  list ScoredPoint → string → Env → (Exn + list ScoredPoint) * Env.

Local Abbreviation dense_search := (Dense.dense_search query_points).
Local Abbreviation sparse_search :=
  (Hybrid.sparse_search sparse_embed query_points).
Local Abbreviation hybrid_search :=
  (Hybrid.hybrid_search embed_query sparse_embed query_points rerank_docs).

(** C6.  Over a vector store that answers only with points that satisfy
    the filter of the request: for every query, document identifier and
    collection, [dense_search] issues exactly one search, on the field
    ["dense"], and [sparse_search] computes the sparse embedding of the
    query once and, when that returns, issues exactly one search, on the
    field ["sparse"], with the vector computed (when it raises, no search
    is issued and the exception is raised); each search carries the
    exact-match filter [metadata.pdf_id = pdf_id]; what the store answers
    is what the search returns or raises, and every point returned carries
    that document identifier in its metadata. *)
Theorem single_field_searches_filter_by_pdf_id :
  respects_filter query_points →
  ∀ (pdf_id brain_id : string) (s : State Env),
    (∀ q : DenseVec, ∃ new r s' resp,
       dense_search q pdf_id brain_id s = (r, s') ∧
       trace s' = trace s ++ new ∧
       query_calls new =
         [(mkQueryRequest brain_id [] (QDense q) (Some "dense")
             (Some (pdf_id_filter pdf_id)) None, resp)] ∧
       r = sum_map id points resp ∧
       ∀ docs, r = inr docs →
         resp = inr (mkQueryResponse docs) ∧
         Forall (λ p, doc_id p = Some pdf_id) docs) ∧
    (∀ q : string, ∃ new r s' embedded,
       sparse_search q pdf_id brain_id s = (r, s') ∧
       trace s' = trace s ++ new ∧
       sparse_calls new = [([q], embedded)] ∧
       match sparse_result embedded with
       | inl e => r = inl e ∧ query_calls new = []
       | inr v =>
           ∃ resp,
             query_calls new =
               [(mkQueryRequest brain_id [] (QSparse v) (Some "sparse")
                   (Some (pdf_id_filter pdf_id)) None, resp)] ∧
             r = sum_map id points resp
       end ∧
       (length (query_calls new) ≤ 1)%nat ∧
       Forall (λ c, ∃ v, c.1 = mkQueryRequest brain_id [] (QSparse v)
                           (Some "sparse") (Some (pdf_id_filter pdf_id)) None)
         (query_calls new) ∧
       ∀ docs, r = inr docs →
         (∃ req, query_calls new = [(req, inr (mkQueryResponse docs))]) ∧
         Forall (λ p, doc_id p = Some pdf_id) docs).
Proof.
  intros Hf pdf_id brain_id s. split; intros q.
  - unfold Dense.dense_search. run_service.
    match goal with |- context [query_points ?req ?e] =>
      destruct (query_points req e) as [[err|[docs]] e1] eqn:Hq end; simpl.
    + eexists [_], _, _, (inl err). split; [reflexivity|].
      split; [reflexivity|]. split; [reflexivity|]. split; [reflexivity|].
      intros docs [=].
    + eexists [_], _, _, (inr (mkQueryResponse docs)). split; [reflexivity|].
      split; [reflexivity|]. split; [reflexivity|]. split; [reflexivity|].
      intros docs' [= <-]. split; [done|].
      by apply (filtered_points_doc_id query_points _ _ _ _ _ Hf Hq).
  - unfold Hybrid.sparse_search. run_service.
    destruct (sparse_embed [q] (env s)) as [[err|[|x xs]] e1] eqn:Hs; simpl.
    + eexists [_], _, _, (inl err). split; [reflexivity|].
      split; [reflexivity|]. split; [reflexivity|]. simpl.
      split; [done|]. split; [lia|]. split; [constructor|]. intros docs [=].
    + eexists [_], _, _, (inr []). split; [reflexivity|].
      split; [reflexivity|]. split; [reflexivity|]. simpl.
      split; [done|]. split; [lia|]. split; [constructor|]. intros docs [=].
    + match goal with |- context [query_points ?req ?e] =>
        destruct (query_points req e) as [[err|[docs]] e2] eqn:Hq end; simpl.
      * eexists [_; _], _, _, (inr (x :: xs)).
        split; [reflexivity|]. split; [simpl; by rewrite <- app_assoc|].
        split; [reflexivity|]. simpl.
        split; [by exists (inl err)|].
        split; [lia|]. split; [by repeat econstructor|].
        intros docs [=].
      * eexists [_; _], _, _, (inr (x :: xs)).
        split; [reflexivity|]. split; [simpl; by rewrite <- app_assoc|].
        split; [reflexivity|]. simpl.
        split; [by exists (inr (mkQueryResponse docs))|].
        split; [lia|]. split; [by repeat econstructor|].
        intros docs' [= <-]. split; [by eexists|].
        by apply (filtered_points_doc_id query_points _ _ _ _ _ Hf Hq).
Qed.

End Search.

(** ** Generating responses *)

Section Responses.
Context {Env : Type}.
Variable llm_invoke : string → Env → (Exn + string) * Env.
Variable str_format : string → string → string → Exn + string.
Variable prompt_template : string.

(** C7, as the code has it.  For every question and context, each
    [generate_response] variant formats the prompt, invokes the language
    model once and returns its text unchanged; when formatting or the
    model call raises, the caller gets that exception in all three
    variants and no variant logs it.  The dense and the HyDE variant have
    no handler; the hybrid variant catches the exception and raises it
    again, and is the only one to log, on success. *)
Theorem generate_response_variants (self : HyDE.HyDEService)
    (question context : string) (s : State Env) :
  responds llm_invoke (str_format prompt_template question context) [] s
    (Dense.generate_response llm_invoke str_format prompt_template
       question context s) ∧
  responds llm_invoke (str_format prompt_template question context)
    [mkLogRecord INFO "response generated"] s
    (Hybrid.generate_response llm_invoke str_format prompt_template
       question context s) ∧
  responds llm_invoke
    (str_format (HyDE.prompt_template self) question context) [] s
    (HyDE.generate_response llm_invoke str_format self question context s).
Proof.
  unfold responds, Dense.generate_response, Hybrid.generate_response,
    HyDE.generate_response.
  run_service.
  split_and!.
  - destruct (str_format prompt_template question context) as [e|prompt];
      [done|]. simpl.
    destruct (llm_invoke prompt (env s)) as [[e|answer] e']; simpl;
      by rewrite ?app_nil_r; destruct s.
  - destruct (str_format prompt_template question context) as [e|prompt];
      [by destruct s|]. simpl.
    destruct (llm_invoke prompt (env s)) as [[e|answer] e']; simpl;
      by rewrite ?app_nil_r.
  - destruct (str_format (HyDE.prompt_template self) question context)
      as [e|prompt]; [done|]. simpl.
    destruct (llm_invoke prompt (env s)) as [[e|answer] e']; simpl;
      by rewrite ?app_nil_r; destruct s.
Qed.
End Responses.

(** C7, counterexample.  The hybrid and the HyDE variant are said to log
    the exception of a failed model call; with a model that raises, each of
    them hands the exception to the caller and leaves the log empty. *)
Lemma failed_response_is_not_logged :
  let hybrid :=
    Hybrid.generate_response Fixture.llm_down Fixture.str_format
      "{question} {context}" "q" "c" Fixture.init in
  let hyde :=
    HyDE.generate_response Fixture.llm_down Fixture.str_format
      (HyDE.__init__ (mkQdrantClient 0 "http://qdrant:6333")) "q" "c" Fixture.init in
  hybrid.1 = inl (ServiceError "model unavailable") ∧ log hybrid.2 = [] ∧
  hyde.1 = inl (ServiceError "model unavailable") ∧ log hyde.2 = [].
Proof. vm_compute. done. Qed.

(** ** HyDE search *)

(** C8, the code at [HyDEService(client).hyde_search(q)].  [__init__]
    leaves [self.retriever] unassigned, so for every client and query the
    search raises [AttributeError] before any retriever is invoked: the
    state, and with it the trace of external calls, is unchanged. *)
Theorem hyde_search_without_retriever {Env}
    (retriever_invoke : HyDE.Retriever → string → Env → (Exn + list Document) * Env)
    (client : QdrantClient) (q : string) (s : State Env) :
  HyDE.hyde_search retriever_invoke (HyDE.__init__ client) q s
  = (inl HyDE.no_retriever_attribute, s).
Proof. reflexivity. Qed.

(** With a retriever in place the search is one [invoke] whose result is
    handed back. *)
Lemma hyde_search_with_retriever {Env}
    (retriever_invoke : HyDE.Retriever → string → Env → (Exn + list Document) * Env)
    (self : HyDE.HyDEService) (r : HyDE.Retriever) (q : string) (s : State Env) :
  HyDE.retriever self = Some r →
  let '(docs, e') := retriever_invoke r q (env s) in
  HyDE.hyde_search retriever_invoke self q s
  = (docs, mkState e' (log s)
             (trace s ++ [EvRetrieverInvoke (HyDE.search_type r) q docs])).
Proof.
  intros Hr. unfold HyDE.hyde_search. rewrite Hr. run_service.
  by destruct (retriever_invoke r q (env s)) as [[e|docs] e'].
Qed.

(** ** The session manager *)

Section ManagerFacts.
Variable QDRANT_URL HYBRID_COLLECTION : string.

Local Abbreviation get_client := (Manager.get_client QDRANT_URL).
Local Abbreviation create_hybrid_collection :=
  (Manager.create_hybrid_collection QDRANT_URL HYBRID_COLLECTION).
Local Abbreviation create_times :=
  (Manager.create_times QDRANT_URL HYBRID_COLLECTION).
Local Abbreviation ensured := (Manager.ensured HYBRID_COLLECTION).

(** C9, the code at [QdrantClientManager().get_client()].  The class
    assigns neither [client] nor [logger], so the first call raises
    [AttributeError] on reading [self.client]; no client is constructed
    and the manager is unchanged. *)
Theorem get_client_on_new_manager clients collections mlog :
  get_client (Manager.mkWorld Manager.new clients collections mlog)
  = (inl Manager.no_client_attribute,
     Manager.mkWorld Manager.new clients collections mlog).
Proof. reflexivity. Qed.

(** C10, the code at [QdrantClientManager().create_hybrid_collection()].
    On a manager as the class builds it the call raises [AttributeError]
    in [get_client], before the existence check: whatever the number of
    calls, the collections of the server are what they were. *)
Theorem create_hybrid_collection_on_new_manager (n : nat)
    clients collections mlog :
  create_times (S n) (Manager.mkWorld Manager.new clients collections mlog)
  = (inl Manager.no_client_attribute,
     Manager.mkWorld Manager.new clients collections mlog).
Proof. reflexivity. Qed.

(** Once [client] holds [None] and [logger] is set, the first call
    constructs a client from the configured URL and keeps it. *)
Lemma get_client_first (w : Manager.World) lg :
  Manager.client (Manager.self w) = Some None →
  Manager.logger (Manager.self w) = Some lg →
  let c := mkQdrantClient (length (Manager.clients w)) QDRANT_URL in
  get_client w
  = (inr c,
     Manager.mkWorld (Manager.mkManager (Some (Some c)) (Some lg))
       (Manager.clients w ++ [c]) (Manager.collections w)
       (Manager.mlog w ++ [mkLogRecord INFO "Qdrant client created."])).
Proof.
  intros Hc Hl. unfold Manager.get_client, Manager.self_client, bind.
  rewrite Hc. simpl. unfold Manager.self_logger_info. simpl. by rewrite Hl.
Qed.

(** A manager that holds a client hands it back and constructs nothing. *)
Lemma get_client_again (w : Manager.World) c :
  Manager.client (Manager.self w) = Some (Some c) →
  get_client w = (inr c, w).
Proof.
  intros Hc. unfold Manager.get_client, Manager.self_client, bind.
  by rewrite Hc.
Qed.

Lemma ensured_idem cols : ensured (ensured cols) = ensured cols.
Proof.
  unfold Manager.ensured at 2. destruct (cols !! HYBRID_COLLECTION) eqn:Hc.
  - unfold Manager.ensured. by rewrite Hc.
  - unfold Manager.ensured. by rewrite lookup_insert_eq, Hc.
Qed.

Lemma create_hybrid_collection_run (w : Manager.World) held lg :
  Manager.client (Manager.self w) = Some held →
  Manager.logger (Manager.self w) = Some lg →
  ∃ w' c,
    create_hybrid_collection w = (inr (), w') ∧
    Manager.collections w' = ensured (Manager.collections w) ∧
    Manager.self w' = Manager.mkManager (Some (Some c)) (Some lg) ∧
    Manager.clients w' =
      Manager.clients w ++ (if held is None then [c] else []) ∧
    (∀ c0, held = Some c0 → c = c0).
Proof.
  intros Hc Hl. unfold Manager.create_hybrid_collection. unfold bind at 1.
  destruct held as [c0|].
  - rewrite (get_client_again w c0 Hc).
    unfold bind, Manager.collection_exists, Manager._create_collection,
      Manager.create_collection, Manager.self_logger_info, Manager.ensured.
    destruct w as [[cl lg'] cs cols ml]. simpl in *. subst lg' cl.
    destruct (cols !! HYBRID_COLLECTION) as [cfg|] eqn:Hcol; simpl;
      rewrite ?Hcol; simpl;
      eexists _, c0; (split_and!; [done..|by rewrite app_nil_r|]);
      by intros ? [= ->].
  - rewrite (get_client_first w lg Hc Hl).
    unfold bind, Manager.collection_exists, Manager._create_collection,
      Manager.create_collection, Manager.self_logger_info, Manager.ensured.
    simpl.
    destruct (Manager.collections w !! HYBRID_COLLECTION) as [cfg|] eqn:Hcol;
      simpl; rewrite ?Hcol; simpl; eexists _, _; split_and!; done.
Qed.

End ManagerFacts.

(** ** The scenario of 130 chunks *)

(** C4, as the code has it.  Indexing 130 chunks in batches of 64 when the
    sparse embedding of chunk 70 alone raises (be the chunks counted from 1
    or from 0) makes batches of 64, 64 and 2 chunks, of which 64, 63 and 2
    are uploaded; [invalid_chunks] ends as 1 and the call returns
    [False]. *)
Theorem scenario_130_chunks :
  Fixture.batch_sizes130 = [64; 64; 2]%nat ∧
  Forall
    (λ bad,
       Fixture.upload_sizes130 bad = [64; 63; 2]%nat ∧
       (Fixture.loop130 bad).1 = inr 1 ∧
       (Fixture.run130 bad).1 = inr false)
    ["chunk 70"; "chunk 71"].
Proof. split; [by vm_compute|]. repeat constructor; by vm_compute. Qed.

(** C4, counterexample.  The run does not go as the scenario is told, with
    batches of 64, 65 and 1 chunks: a batch never has more than 64. *)
Lemma scenario_130_not_as_told : ¬ Fixture.scenario_as_told "chunk 70".
Proof. intros [Hsizes _]. vm_compute in Hsizes. discriminate Hsizes. Qed.

Lemma fixture_respects_filter : respects_filter Fixture.query_points.
Proof.
  intros req e resp e' f Hq Hf. unfold Fixture.query_points in Hq.
  destruct (_ <? 0); [done|]. injection Hq as <- <-. simpl.
  apply Forall_take, Forall_fmap, Forall_forall. intros p Hp. simpl.
  apply list_elem_of_filter in Hp as [Hp _]. unfold Fixture.passes in Hp.
  rewrite Hf in Hp. by apply andb_prop in Hp as [_ Hp].
Qed.

Lemma fixture_respects_limit : respects_limit Fixture.query_points.
Proof.
  intros req e resp e' n Hq Hn. unfold Fixture.query_points in Hq.
  rewrite Hn in Hq. destruct (Z.ltb_spec n 0); [done|].
  injection Hq as <- <-. simpl. unfold Py.len. rewrite length_take. lia.
Qed.

(** *** Runs that end early or do nothing *)

(** With a vector store that refuses the upload, the run over three chunks
    in batches of two stops at the first upload: the third chunk is never
    embedded, the error is logged and [False] is returned. *)
Example refused_upload_stops_the_run :
  let run :=
    Hybrid.index_hybrid_collection Fixture.embed_query
      (Fixture.sparse_embed "") Fixture.uuid4 Fixture.upload_refused
      (take 3 Fixture.chunks130) "brain" 2 Fixture.init in
  run.1 = inr false ∧
  (dense_calls (trace run.2)).*1 = ["chunk 1"; "chunk 2"] ∧
  (upload_calls (trace run.2)).*2 = [inl (ServiceError "connection refused")] ∧
  last (log run.2)
  = Some (mkLogRecord ERROR
            "Error occurred during batch indexing: connection refused").
Proof. by vm_compute. Qed.

(** A zero batch size makes [range] raise inside the [try] block: nothing
    is embedded and [False] is returned. *)
Example zero_batch_size_returns_false :
  let run :=
    Hybrid.index_hybrid_collection Fixture.embed_query
      (Fixture.sparse_embed "") Fixture.uuid4 Fixture.upload_points
      (take 3 Fixture.chunks130) "brain" 0 Fixture.init in
  run.1 = inr false ∧ trace run.2 = [].
Proof. by vm_compute. Qed.

(** A negative batch size makes the list of batches empty: nothing is
    embedded or uploaded and [True] is returned. *)
Example negative_batch_size_returns_true :
  let run :=
    Hybrid.index_hybrid_collection Fixture.embed_query
      (Fixture.sparse_embed "") Fixture.uuid4 Fixture.upload_points
      (take 3 Fixture.chunks130) "brain" (-1) Fixture.init in
  run.1 = inr true ∧ trace run.2 = [].
Proof. by vm_compute. Qed.

(** *** Instances on the executable environment *)

Lemma batched_chunks_partition_witness :
  ∃ batches : list (list Document),
    Hybrid.batched_chunks (take 5 Fixture.chunks130) 2 = inr batches ∧
    concat batches = take 5 Fixture.chunks130 ∧
    (∀ j i : nat, Z.of_nat i < 2 →
       batches !! j ≫= (λ batch, batch !! i)
       = take 5 Fixture.chunks130 !! (j * Z.to_nat 2 + i)%nat) ∧
    (∀ (j : nat) batch, batches !! j = Some batch →
       Py.len batch =
         if decide (S j = length batches) then
           if decide (Py.len (take 5 Fixture.chunks130) `mod` 2 = 0) then 2
           else Py.len (take 5 Fixture.chunks130) `mod` 2
         else 2).
Proof.
  exact (batched_chunks_partition (take 5 Fixture.chunks130) 2 eq_refl).
Defined.

Lemma single_field_searches_witness :
  respects_filter Fixture.query_points ∧
  (∃ docs,
     (Dense.dense_search Fixture.query_points [7] "doc-42" "brain"
        Fixture.indexed).1 = inr docs ∧
     length docs = 5%nat ∧
     Forall (λ p, doc_id p = Some "doc-42") docs) ∧
  (∃ docs,
     (Hybrid.sparse_search (Fixture.sparse_embed "") Fixture.query_points
        "refund policy" "doc-42" "brain" Fixture.indexed).1 = inr docs ∧
     length docs = 5%nat ∧
     Forall (λ p, doc_id p = Some "doc-42") docs).
Proof.
  split; [exact fixture_respects_filter|].
  destruct (single_field_searches_filter_by_pdf_id
              (Fixture.sparse_embed "") Fixture.query_points
              fixture_respects_filter "doc-42" "brain" Fixture.indexed)
    as [Hdense Hsparse].
  split.
  - destruct (Hdense [7]) as (new & r & s' & resp & Hrun & _ & _ & _ & Hdocs).
    vm_compute in Hrun. injection Hrun as <- _.
    eexists. split; [by vm_compute|]. split; [by vm_compute|].
    exact (proj2 (Hdocs _ eq_refl)).
  - destruct (Hsparse "refund policy")
      as (new & r & s' & emb & Hrun & _ & _ & _ & _ & _ & Hdocs).
    vm_compute in Hrun. injection Hrun as <- _.
    eexists. split; [by vm_compute|]. split; [by vm_compute|].
    exact (proj2 (Hdocs _ eq_refl)).
Defined.


Lemma index_uploads_witness :
  let chunks := take 5 Fixture.chunks130 in
  let run :=
    Hybrid.index_hybrid_collection Fixture.embed_query
      (Fixture.sparse_embed "chunk 4") Fixture.uuid4 Fixture.upload_points
      chunks "brain" 2 Fixture.init in
  let tr := trace run.2 in
  (0 < 2 ∧ uploads_ok tr) ∧
  att_doc <$> attempts chunks tr = chunks ∧
  point_body <$> stored tr = omap attempt_point (attempts chunks tr) ∧
  length (stored tr) = 4%nat ∧
  failed_attempts (attempts chunks tr) = 1%nat.
Proof.
  intros chunks run tr.
  assert (0 < 2) as Hbs by reflexivity.
  assert (uploads_ok tr) as Hup.
  { unfold uploads_ok. vm_compute. repeat constructor. }
  destruct (index_uploads_iff_both_embedded Fixture.embed_query
              (Fixture.sparse_embed "chunk 4") Fixture.uuid4
              Fixture.upload_points chunks "brain" 2 Fixture.init)
    as (new & ret & s' & Hrun & Htr & _ & _ & _ & _ & _ & _ & Hall & _).
  assert (new = tr) as ->.
  { unfold tr, run. rewrite Hrun. simpl. by rewrite Htr. }
  destruct (Hall Hbs Hup) as (Hcov & Hsto & _).
  split; [by split|]. split; [exact Hcov|]. split; [exact Hsto|].
  split; by vm_compute.
Defined.

Lemma index_returns_witness :
  let chunks := take 5 Fixture.chunks130 in
  let run (bad : string) :=
    Hybrid.index_hybrid_collection Fixture.embed_query
      (Fixture.sparse_embed bad) Fixture.uuid4 Fixture.upload_points
      chunks "brain" 2 Fixture.init in
  ((0 < 2 ∧ uploads_ok (trace (run "").2)) ∧
   (run "").1 = inr true ∧
   att_doc <$> attempts chunks (trace (run "").2) = chunks ∧
   length (stored (trace (run "").2)) = 5%nat) ∧
  ((0 < 2 ∧ uploads_ok (trace (run "chunk 4").2)) ∧
   (run "chunk 4").1 = inr false ∧
   att_doc <$> attempts chunks (trace (run "chunk 4").2) = chunks ∧
   length (stored (trace (run "chunk 4").2)) = 4%nat).
Proof.
  intros chunks run.
  assert (0 < 2) as Hbs by reflexivity.
  split.
  - assert (uploads_ok (trace (run "").2)) as Hup.
    { unfold uploads_ok. vm_compute. repeat constructor. }
    destruct (index_returns_true_iff_all_indexed Fixture.embed_query
                (Fixture.sparse_embed "") Fixture.uuid4
                Fixture.upload_points chunks "brain" 2 Fixture.init)
      as (new & ret & s' & Hrun & Htr & _ & _ & Hall & _).
    assert (new = trace (run "").2) as ->.
    { unfold run. rewrite Hrun. simpl. by rewrite Htr. }
    destruct (Hall Hbs Hup) as (Hcov & _ & _).
    split; [by split|]. split; [by vm_compute|]. split; [exact Hcov|].
    by vm_compute.
  - assert (uploads_ok (trace (run "chunk 4").2)) as Hup.
    { unfold uploads_ok. vm_compute. repeat constructor. }
    destruct (index_returns_true_iff_all_indexed Fixture.embed_query
                (Fixture.sparse_embed "chunk 4") Fixture.uuid4
                Fixture.upload_points chunks "brain" 2 Fixture.init)
      as (new & ret & s' & Hrun & Htr & _ & _ & Hall & _).
    assert (new = trace (run "chunk 4").2) as ->.
    { unfold run. rewrite Hrun. simpl. by rewrite Htr. }
    destruct (Hall Hbs Hup) as (Hcov & _ & _).
    split; [by split|]. split; [by vm_compute|]. split; [exact Hcov|].
    by vm_compute.
Defined.

(** * Further properties *)

(** ** Batching, the other batch sizes *)

(** The batches for every batch size: zero makes [range] raise
    [ValueError]; a negative one gives no batch at all; a positive one gives
    the ceiling of [len(chunks) / batch_size] batches; no batch is empty or
    longer than the batch size. *)
Lemma batched_chunks_by_sign (chunks : list Document) (batch_size : Z) :
  match Hybrid.batched_chunks chunks batch_size with
  | inl e =>
      batch_size = 0 ∧ e = ValueError "range() arg 3 must not be zero"
  | inr batches =>
      batch_size ≠ 0 ∧
      (batch_size < 0 → batches = []) ∧
      (0 < batch_size →
         Py.len batches = (Py.len chunks + batch_size - 1) `div` batch_size) ∧
      Forall (λ batch, batch ≠ [] ∧ Py.len batch ≤ batch_size) batches
  end.
Proof.
  destruct (Z.lt_trichotomy batch_size 0) as [Hneg|[->|Hpos]].
  - unfold Hybrid.batched_chunks, Py.range, Py.range_len.
    destruct (Z.eqb_spec batch_size 0); [lia|].
    destruct (Z.ltb_spec 0 batch_size); [lia|].
    destruct (Z.ltb_spec (Py.len chunks) 0); [unfold Py.len in *; lia|].
    simpl. split_and!; [done|done|lia|constructor].
  - by vm_compute.
  - rewrite batched_chunks_windows by done.
    pose proof (ceil_div_bounds (Py.len chunks) batch_size
                  ltac:(unfold Py.len; lia) Hpos) as (Hm0 & Hup & Hlo & _).
    set (m := (Py.len chunks + batch_size - 1) `div` batch_size) in *.
    split_and!; [lia|lia| |].
    + intros _. unfold Py.len at 1. rewrite length_windows. lia.
    + apply Forall_forall. intros batch Hin.
      apply list_elem_of_lookup in Hin as [j Hj].
      assert (j < Z.to_nat m)%nat as Hjm.
      { apply lookup_lt_Some in Hj. by rewrite length_windows in Hj. }
      rewrite windows_lookup in Hj by done. injection Hj as <-.
      unfold Py.len in *. split.
      * intros Hnil. apply (f_equal length) in Hnil.
        rewrite length_take, length_drop in Hnil. simpl in Hnil. nia.
      * rewrite length_take. lia.
Qed.

(** ** Indexing: the uploads and the identifiers *)

Lemma docs_run_sizes docs evs pts k :
  docs_run docs evs pts k →
  (length pts + k = length docs)%nat ∧
  uuid_calls evs = point_id <$> pts ∧
  upload_requests evs = [].
Proof.
  induction 1 as [|doc d r sp id docs evs pts k _ _ (IH1 & IH2 & IH3)
                   |doc d r docs evs pts k _ _ (IH1 & IH2 & IH3)].
  - done.
  - split_and!; [simpl; lia| |done].
    change (uuid_calls (_ :: _ :: EvUuid4 id :: evs))
      with (id :: uuid_calls evs).
    by rewrite IH2.
  - split_and!; [simpl; lia|done..].
Qed.

Lemma uuid_calls_app tr1 tr2 :
  uuid_calls (tr1 ++ tr2) = uuid_calls tr1 ++ uuid_calls tr2.
Proof. apply omap_app. Qed.

Lemma upload_requests_app tr1 tr2 :
  upload_requests (tr1 ++ tr2) = upload_requests tr1 ++ upload_requests tr2.
Proof. apply omap_app. Qed.

Lemma submitted_none evs : upload_requests evs = [] → submitted evs = [].
Proof.
  unfold submitted, upload_calls, upload_requests.
  induction evs as [|ev evs IH]; [done|].
  destruct ev; simpl; try done.
Qed.

Lemma submitted_upload name pts bs r :
  submitted [EvUploadPoints name pts bs r] = pts.
Proof. unfold submitted. simpl. apply app_nil_r. Qed.

Lemma batches_run_uploads brain_id batch_size batches evs n k ab :
  Forall (λ batch : list Document, Py.len batch ≤ batch_size) batches →
  batches_run brain_id batch_size batches evs n k ab →
  uuid_calls evs = point_id <$> submitted evs ∧
  Forall (well_batched brain_id batch_size) (upload_requests evs) ∧
  (length (upload_requests evs) ≤ n)%nat.
Proof.
  intros Hlen Hrun. revert Hlen.
  induction Hrun as [|batch evs k rest evs' n k' ab Hdocs _ IH
                     |batch evs pts k rest evs' n k' ab Hdocs Hne _ IH
                     |batch evs pts k rest e Hdocs Hne]; intros Hlen.
  - split_and!; [done|constructor|done].
  - apply Forall_cons_1 in Hlen as [Hb Hrest].
    destruct (IH Hrest) as (IHu & IHf & IHn).
    apply docs_run_sizes in Hdocs as (_ & Hu & Hup).
    rewrite uuid_calls_app, upload_requests_app, submitted_app, Hup, Hu, IHu.
    rewrite (submitted_none evs Hup). simpl. split_and!; [done|done|lia].
  - apply Forall_cons_1 in Hlen as [Hb Hrest].
    destruct (IH Hrest) as (IHu & IHf & IHn).
    apply docs_run_sizes in Hdocs as (Hsz & Hu & Hup).
    rewrite uuid_calls_app, upload_requests_app, submitted_app, Hup, Hu.
    rewrite (submitted_none evs Hup). simpl.
    change (EvUploadPoints brain_id pts batch_size (inr ()) :: evs')
      with ([EvUploadPoints brain_id pts batch_size (inr ())] ++ evs').
    rewrite submitted_app, submitted_upload, fmap_app, IHu.
    split_and!; [done| |lia].
    constructor; [|done]. unfold well_batched, Py.len in *. simpl.
    split_and!; [done..|lia].
  - apply Forall_cons_1 in Hlen as [Hb Hrest].
    apply docs_run_sizes in Hdocs as (Hsz & Hu & Hup).
    rewrite uuid_calls_app, upload_requests_app, submitted_app, Hup, Hu.
    rewrite (submitted_none evs Hup), submitted_upload. simpl.
    split_and!; [by rewrite app_nil_r| |lia].
    constructor; [|constructor]. unfold well_batched, Py.len in *. simpl.
    split_and!; [done..|lia].
Qed.

Section IndexingMore.
Context {Env : Type}.
Variable embed_query : string → Env → (Exn + DenseVec) * Env.
Variable sparse_embed : list string → Env → (Exn + list SparseEmbedding) * Env.
Variable uuid4 : Env → string * Env.
Variable upload_points :
  string → list PointStruct → Z → Env → (Exn + ()) * Env.

Local Abbreviation index_loop :=
  (Hybrid.index_loop embed_query sparse_embed uuid4 upload_points).
Local Abbreviation index_hybrid_collection :=
  (Hybrid.index_hybrid_collection embed_query sparse_embed uuid4 upload_points).

Lemma index_loop_cases chunks brain_id batch_size (s : State Env) :
  match Hybrid.batched_chunks chunks batch_size with
  | inl e => index_loop chunks brain_id batch_size s = (inl e, s)
  | inr batches =>
      ∃ evs n k ab s',
        index_loop chunks brain_id batch_size s
        = (match ab with None => inr (Z.of_nat k) | Some e => inl e end, s') ∧
        trace s' = trace s ++ evs ∧
        batches_run brain_id batch_size batches evs n k ab
  end.
Proof.
  unfold Hybrid.index_loop, bind, lift.
  destruct (Hybrid.batched_chunks chunks batch_size) as [e|batches]; [done|].
  destruct (index_batches_run embed_query sparse_embed uuid4 upload_points
              (Py.len chunks) brain_id batch_size batches 0 s)
    as (evs & n & k & ab & s' & Hrun & Htr & Hbr).
  exists evs, n, k, ab, s'. by rewrite Hrun.
Qed.

Lemma index_trace_of_loop chunks brain_id batch_size (s : State Env) :
  trace (index_hybrid_collection chunks brain_id batch_size s).2
  = trace (index_loop chunks brain_id batch_size
             (logged s INFO
                ("Indexing " +:+ pretty (Py.len chunks)
                   +:+ " documents into Qdrant Hybrid Collection."))).2.
Proof.
  rewrite index_hybrid_collection_unfold.
  by destruct (index_loop _ _ _ _) as [[e|n] s1].
Qed.

(** X1.  Every call of [upload_points] that [index_hybrid_collection]
    makes is for the collection [brain_id], carries the [batch_size] of the
    call, and hands over a list of points that is not empty and no longer
    than the batch size; there are no more uploads than batches. *)
Theorem uploads_are_nonempty_batches chunks brain_id batch_size
    (s : State Env) :
  ∃ new,
    trace (index_hybrid_collection chunks brain_id batch_size s).2
    = trace s ++ new ∧
    Forall (well_batched brain_id batch_size) (upload_requests new) ∧
    ∀ batches, Hybrid.batched_chunks chunks batch_size = inr batches →
      (length (upload_requests new) ≤ length batches)%nat.
Proof.
  rewrite index_trace_of_loop. set (s0 := logged s INFO _).
  pose proof (index_loop_cases chunks brain_id batch_size s0) as Hcases.
  pose proof (batched_chunks_by_sign chunks batch_size) as Hsign.
  destruct (Hybrid.batched_chunks chunks batch_size) as [e|batches].
  - rewrite Hcases. exists []. simpl. rewrite app_nil_r.
    split_and!; [done|constructor|done].
  - destruct Hcases as (evs & n & k & ab & s' & -> & Htr & Hrun).
    destruct Hsign as (_ & _ & _ & Hall).
    pose proof (batches_run_embeds _ _ _ _ _ _ _ Hrun) as (Hn & _).
    apply batches_run_uploads in Hrun as (_ & Hf & Hlen).
    2: { eapply Forall_impl; [exact Hall|]. by intros ? [_ ?]. }
    exists evs. simpl. split_and!; [done|done|].
    intros ? [= <-]. lia.
Qed.

(** X2.  The identifiers of the points handed to [upload_points] are, in
    order, exactly the values drawn from [uuid.uuid4] during the call: one
    draw per point, and none for a chunk that is skipped. *)
Theorem point_ids_are_the_drawn_uuids chunks brain_id batch_size
    (s : State Env) :
  ∃ new,
    trace (index_hybrid_collection chunks brain_id batch_size s).2
    = trace s ++ new ∧
    point_id <$> submitted new = uuid_calls new.
Proof.
  rewrite index_trace_of_loop. set (s0 := logged s INFO _).
  pose proof (index_loop_cases chunks brain_id batch_size s0) as Hcases.
  pose proof (batched_chunks_by_sign chunks batch_size) as Hsign.
  destruct (Hybrid.batched_chunks chunks batch_size) as [e|batches].
  - rewrite Hcases. exists []. simpl. by rewrite app_nil_r.
  - destruct Hcases as (evs & n & k & ab & s' & -> & Htr & Hrun).
    destruct Hsign as (_ & _ & _ & Hall).
    apply batches_run_uploads in Hrun as (Hu & _).
    2: { eapply Forall_impl; [exact Hall|]. by intros ? [_ ?]. }
    exists evs. by split.
Qed.

End IndexingMore.

(** ** Indexing: the log *)

Lemma level_count_app lvl r1 r2 :
  level_count lvl (r1 ++ r2) = (level_count lvl r1 + level_count lvl r2)%nat.
Proof. unfold level_count. by rewrite filter_app, length_app. Qed.

Lemma level_count_singleton lvl r :
  level_count lvl [r] = if decide (level r = lvl) then 1%nat else 0%nat.
Proof.
  unfold level_count. case_decide.
  - by rewrite filter_cons_True.
  - by rewrite filter_cons_False.
Qed.

Lemma raised_embeddings_app tr1 tr2 :
  raised_embeddings (tr1 ++ tr2)
  = (raised_embeddings tr1 + raised_embeddings tr2)%nat.
Proof.
  unfold raised_embeddings.
  rewrite dense_calls_app, sparse_calls_app, !filter_app, !length_app. lia.
Qed.

Lemma raised_uploads_app tr1 tr2 :
  raised_uploads (tr1 ++ tr2) = (raised_uploads tr1 + raised_uploads tr2)%nat.
Proof.
  unfold raised_uploads. by rewrite upload_calls_app, filter_app, length_app.
Qed.

Lemma loop_log_nil bound : loop_log bound 0 [] [].
Proof. by repeat split. Qed.

Lemma loop_log_app (bound : nat → Prop) k1 evs1 recs1 k2 evs2 recs2 :
  loop_log bound k1 evs1 recs1 → loop_log bound k2 evs2 recs2 →
  loop_log bound (k1 + k2) (evs1 ++ evs2) (recs1 ++ recs2).
Proof.
  intros (Hw1 & He1 & Hi1 & Hm1) (Hw2 & He2 & Hi2 & Hm2). unfold loop_log.
  rewrite !level_count_app, raised_embeddings_app, raised_uploads_app,
    upload_calls_app, length_app.
  split_and!; [lia..|by apply Forall_app].
Qed.

Lemma loop_log_weaken (bound bound' : nat → Prop) k evs recs :
  (∀ i, bound i → bound' i) →
  loop_log bound k evs recs → loop_log bound' k evs recs.
Proof.
  intros Hb (Hw & He & Hi & Hm). split_and!; [done..|].
  eapply Forall_impl; [exact Hm|]. intros r Hr Hl.
  destruct (Hr Hl) as (i & Hi' & Hmsg). eauto.
Qed.

Section IndexingLog.
Context {Env : Type}.
Variable embed_query : string → Env → (Exn + DenseVec) * Env.
Variable sparse_embed : list string → Env → (Exn + list SparseEmbedding) * Env.
Variable uuid4 : Env → string * Env.
Variable upload_points :
  string → list PointStruct → Z → Env → (Exn + ()) * Env.

Local Abbreviation index_doc := (Hybrid.index_doc embed_query sparse_embed uuid4).
Local Abbreviation index_docs := (Hybrid.index_docs embed_query sparse_embed uuid4).
Local Abbreviation index_batches :=
  (Hybrid.index_batches embed_query sparse_embed uuid4 upload_points).
Local Abbreviation index_loop :=
  (Hybrid.index_loop embed_query sparse_embed uuid4 upload_points).
Local Abbreviation index_hybrid_collection :=
  (Hybrid.index_hybrid_collection embed_query sparse_embed uuid4 upload_points).

Ltac skip_case :=
  eexists _, [], 1%nat, _, _; rewrite app_nil_r;
  split; [reflexivity|]; simpl; rewrite <- !app_assoc; simpl;
  split; [reflexivity|]; split; [reflexivity|];
  split; [by apply docs_run_skip; [|constructor]|];
  split_and!; [done..|];
  repeat constructor; simpl; try done; intros _; by eexists.

Lemma index_doc_run_log i doc pts inv (s : State Env) :
  ∃ evs new k recs s',
    index_doc i doc pts inv s = (inr (pts ++ new, inv + Z.of_nat k), s') ∧
    trace s' = trace s ++ evs ∧
    log s' = log s ++ recs ∧
    docs_run [doc] evs new k ∧
    loop_log (eq i) k evs recs.
Proof.
  unfold Hybrid.index_doc, Hybrid.create_dense_vector,
    Hybrid.create_sparse_vector.
  run_service.
  destruct (embed_query (page_content doc) (env s)) as [[e|d] e1] eqn:Hd; simpl.
  - destruct (sparse_embed [page_content doc] e1) as [[e'|[|x xs]] e2] eqn:Hs;
      simpl; skip_case.
  - destruct (sparse_embed [page_content doc] e1) as [[e'|[|x xs]] e2] eqn:Hs;
      simpl; [skip_case..|].
    destruct (uuid4 e2) as [id e3] eqn:Hu. simpl.
    eexists _, [_], 0%nat, [], _. rewrite Z.add_0_r.
    split; [reflexivity|]. simpl. rewrite <- !app_assoc. simpl.
    split; [reflexivity|]. split; [by rewrite app_nil_r|].
    split; [by eapply docs_run_point; [|constructor]|].
    by split_and!.
Qed.

Lemma index_docs_run_log (batch : list (nat * Document)) pts inv (s : State Env) :
  ∃ evs new k recs s',
    index_docs batch pts inv s = (inr (pts ++ new, inv + Z.of_nat k), s') ∧
    trace s' = trace s ++ evs ∧
    log s' = log s ++ recs ∧
    docs_run (batch.*2) evs new k ∧
    loop_log (λ i, i ∈ batch.*1) k evs recs.
Proof.
  revert pts inv s. induction batch as [|[i doc] batch IH]; intros pts inv s.
  - exists [], [], 0%nat, [], s. simpl. rewrite !app_nil_r, Z.add_0_r.
    split_and!; [done..|constructor|apply loop_log_nil].
  - simpl. unfold bind at 1.
    destruct (index_doc_run_log i doc pts inv s)
      as (evs1 & new1 & k1 & recs1 & s1 & -> & Htr1 & Hlog1 & Hrun1 & Hl1).
    destruct (IH (pts ++ new1) (inv + Z.of_nat k1) s1)
      as (evs2 & new2 & k2 & recs2 & s2 & -> & Htr2 & Hlog2 & Hrun2 & Hl2).
    exists (evs1 ++ evs2), (new1 ++ new2), (k1 + k2)%nat, (recs1 ++ recs2), s2.
    split_and!.
    + rewrite <- app_assoc, Nat2Z.inj_add, Z.add_assoc. done.
    + by rewrite Htr2, Htr1, app_assoc.
    + by rewrite Hlog2, Hlog1, app_assoc.
    + by apply (docs_run_app [doc]).
    + apply loop_log_app.
      * eapply loop_log_weaken; [|exact Hl1]. intros ? <-. simpl.
        apply elem_of_cons. by left.
      * eapply loop_log_weaken; [|exact Hl2]. intros j Hj. simpl.
        apply elem_of_cons. by right.
Qed.

Lemma enumerate_fst {A} (l : list A) i :
  i ∈ (Py.enumerate l).*1 → (i < length l)%nat.
Proof.
  unfold Py.enumerate. rewrite fmap_imap.
  intros Hi. apply list_elem_of_lookup in Hi as [j Hj].
  rewrite list_lookup_imap in Hj.
  destruct (l !! j) eqn:Hl; [|done]. simpl in Hj. injection Hj as <-.
  by apply lookup_lt_Some in Hl.
Qed.

Lemma index_batches_run_log n_chunks brain_id batch_size batches inv
    (s : State Env) :
  Forall (λ batch : list Document, Py.len batch ≤ batch_size) batches →
  ∃ evs n k ab recs s',
    index_batches n_chunks brain_id batch_size batches inv s
    = (match ab with None => inr (inv + Z.of_nat k) | Some e => inl e end, s') ∧
    trace s' = trace s ++ evs ∧
    log s' = log s ++ recs ∧
    batches_run brain_id batch_size batches evs n k ab ∧
    loop_log (λ i, Z.of_nat i < batch_size) k evs recs.
Proof.
  intros Hlen. revert inv s.
  induction Hlen as [|batch rest Hb _ IH]; intros inv s.
  - exists [], 0%nat, 0%nat, None, [], s. simpl. rewrite !app_nil_r, Z.add_0_r.
    split_and!; [done..|constructor|apply loop_log_nil].
  - simpl. unfold bind at 1. unfold Hybrid.index_batch. unfold bind at 1.
    destruct (index_docs_run_log (Py.enumerate batch) [] inv s)
      as (evs1 & pts & k1 & recs1 & s1 & -> & Htr1 & Hlog1 & Hrun1 & Hl1).
    rewrite enumerate_snd in Hrun1. simpl.
    pose proof (docs_run_embeds _ _ _ _ Hrun1) as [_ Hnoup].
    assert (loop_log (λ i, Z.of_nat i < batch_size) k1 evs1 recs1) as Hl1'.
    { eapply loop_log_weaken; [|exact Hl1]. intros i Hi. simpl in Hi.
      apply enumerate_fst in Hi. unfold Py.len in Hb. lia. }
    case_bool_decide as Hpts.
    + unfold bind at 1. unfold bind at 1. unfold call.
      destruct (upload_points brain_id pts batch_size (env s1))
        as [[e|[]] e1] eqn:Hup.
      * eexists _, 1%nat, k1, (Some e), recs1, _. split; [reflexivity|]. simpl.
        split; [by rewrite Htr1, <- app_assoc|]. split; [done|].
        split; [by apply batches_run_abort|].
        rewrite <- (app_nil_r recs1), <- (Nat.add_0_r k1).
        apply loop_log_app; [done|]. by split_and!.
      * unfold logger_info, logger_log. simpl.
        match goal with |- context [index_batches _ _ _ rest ?i ?st] =>
          destruct (IH i st)
            as (evs2 & n2 & k2 & ab & recs2 & s2 & -> & Htr2 & Hlog2 & Hrun2 & Hl2)
        end.
        simpl in Htr2, Hlog2.
        exists (evs1 ++ EvUploadPoints brain_id pts batch_size (inr ()) :: evs2),
          (S n2), (k1 + k2)%nat, ab,
          (recs1 ++ mkLogRecord INFO
                      ("Indexed " +:+ pretty n_chunks
                         +:+ " documents into Qdrant Hybrid Collection.")
                  :: recs2), s2.
        split_and!.
        -- destruct ab; [done|]. do 2 f_equal. lia.
        -- rewrite Htr2, Htr1, <- !app_assoc. done.
        -- rewrite Hlog2, Hlog1, <- !app_assoc. done.
        -- by apply batches_run_upload.
        -- apply loop_log_app; [done|].
           apply (loop_log_app _ 0 [_] [mkLogRecord INFO _] k2 evs2 recs2);
             [|done].
           by split_and!; [..|repeat constructor].
      + subst pts.
        unfold bind at 1, ret at 1. unfold ret at 1.
        destruct (IH (inv + Z.of_nat k1) s1)
          as (evs2 & n2 & k2 & ab & recs2 & s2 & -> & Htr2 & Hlog2 & Hrun2 & Hl2).
        exists (evs1 ++ evs2), (S n2), (k1 + k2)%nat, ab, (recs1 ++ recs2), s2.
        split_and!.
        -- destruct ab; [done|]. do 2 f_equal. lia.
        -- by rewrite Htr2, Htr1, app_assoc.
        -- by rewrite Hlog2, Hlog1, app_assoc.
        -- by apply batches_run_quiet.
        -- by apply loop_log_app.
Qed.

Lemma batches_run_failed chunks brain_id batch_size batches evs n k ab :
  Hybrid.batched_chunks chunks batch_size = inr batches →
  batches_run brain_id batch_size batches evs n k ab →
  k = failed_attempts (attempts chunks evs).
Proof.
  intros Hb Hrun.
  apply batches_run_embeds in Hrun as (Hn & Hemb & _).
  destruct (batched_chunks_concat _ _ _ Hb) as (more & Hchunks & _).
  destruct (embeds_lengths _ _ _ _ Hemb) as [Hld Hls].
  destruct Hemb as (_ & _ & _ & ->). f_equal.
  assert (chunks = concat (take n batches)
                     ++ (concat (drop n batches) ++ more)) as Hc.
  { by rewrite app_assoc, <- concat_app, take_drop. }
  rewrite Hc. symmetry. by apply attempts_more.
Qed.

Lemma uploads_ok_raised tr : uploads_ok tr → raised_uploads tr = 0%nat.
Proof.
  unfold uploads_ok, raised_uploads. generalize (upload_calls tr).
  induction 1 as [|c cs Hc _ IH]; [done|].
  rewrite filter_cons_False; [done|]. by rewrite Hc.
Qed.

(** X3.  The log of a call of [index_hybrid_collection] accounts for the
    run: one warning per skipped chunk, naming the position of the chunk
    within its batch; one error record per embedding computation that
    raised, one per upload that raised, and one when the batch size is
    zero; one information record at the start and one per upload that
    returned. *)
Theorem index_log_accounts_for_the_run chunks brain_id batch_size
    (s : State Env) :
  ∃ new recs r s',
    index_hybrid_collection chunks brain_id batch_size s = (r, s') ∧
    trace s' = trace s ++ new ∧
    log s' = log s ++ recs ∧
    level_count WARNING recs = failed_attempts (attempts chunks new) ∧
    level_count ERROR recs
    = (raised_embeddings new + raised_uploads new
       + (if decide (batch_size = 0%Z) then 1 else 0))%nat ∧
    (level_count INFO recs + raised_uploads new)%nat
    = S (length (upload_calls new)) ∧
    Forall (λ r, level r = WARNING →
                 ∃ i : nat, Z.of_nat i < batch_size ∧
                            message r = skip_message i) recs.
Proof.
  rewrite index_hybrid_collection_unfold. set (s0 := logged s INFO _).
  unfold Hybrid.index_loop, bind, lift.
  pose proof (batched_chunks_by_sign chunks batch_size) as Hsign.
  destruct (Hybrid.batched_chunks chunks batch_size) as [e|batches] eqn:Hb.
  - destruct Hsign as [-> ->].
    eexists [], [_; _], _, _. split; [reflexivity|]. simpl.
    rewrite app_nil_r. split; [done|]. split; [by rewrite <- app_assoc|].
    assert (attempts chunks [] = []) as -> by apply zip_with_nil_r.
    split_and!; [done..|]. repeat constructor; done.
  - destruct Hsign as (Hnz & _ & _ & Hall).
    destruct (index_batches_run_log (Py.len chunks) brain_id batch_size
                batches 0 s0)
      as (new & n & k & ab & recs & s1 & -> & Htr & Hlog & Hrun & Hl).
    { eapply Forall_impl; [exact Hall|]. by intros ? [_ ?]. }
    pose proof (batches_run_failed _ _ _ _ _ _ _ _ Hb Hrun) as Hk.
    apply batches_run_embeds in Hrun as (_ & _ & Hab).
    destruct Hl as (Hw & He & Hi & Hm).
    rewrite decide_False by done.
    destruct ab as [e|].
    + destruct Hab as (pre & pts & -> & Hpre).
      eexists _, (_ :: recs ++ [_]), _, _. split; [reflexivity|]. simpl.
      split; [done|].
      split; [rewrite Hlog; subst s0; unfold logged; simpl;
              by rewrite <- !app_assoc|].
      change (?x :: recs ++ ?y) with ([x] ++ recs ++ y).
      rewrite !level_count_app, Hw, He, <- Hi.
      rewrite raised_uploads_app, (uploads_ok_raised pre Hpre).
      rewrite !level_count_singleton. simpl.
      change (raised_uploads [EvUploadPoints _ _ _ (inl _)]) with 1%nat.
      split_and!; [lia..|].
      constructor; [done|].
      apply Forall_app. split; [done|]. by repeat constructor.
    + destruct Hab as [_ Hok].
      eexists _, (_ :: recs), _, _. split; [reflexivity|]. simpl.
      split; [done|].
      split; [rewrite Hlog; subst s0; unfold logged; simpl;
              by rewrite <- !app_assoc|].
      change (?x :: recs) with ([x] ++ recs).
      rewrite !level_count_app, Hw, He, <- Hi.
      rewrite (uploads_ok_raised new Hok).
      rewrite !level_count_singleton. simpl.
      split_and!; [lia..|].
      by constructor.
Qed.

End IndexingLog.

(** ** Indexing: the other batch sizes and no chunk *)

Section IndexingEdges.
Context {Env : Type}.
Variable embed_query : string → Env → (Exn + DenseVec) * Env.
Variable sparse_embed : list string → Env → (Exn + list SparseEmbedding) * Env.
Variable uuid4 : Env → string * Env.
Variable upload_points :
  string → list PointStruct → Z → Env → (Exn + ()) * Env.

Local Abbreviation index_hybrid_collection :=
  (Hybrid.index_hybrid_collection embed_query sparse_embed uuid4 upload_points).

(** A zero batch size: [range] raises, the handler logs the exception and
    the call returns [False]. *)
Lemma index_with_zero_batch_size chunks brain_id (s : State Env) :
  index_hybrid_collection chunks brain_id 0 s
  = (inr false,
     logged (logged s INFO (indexing_message chunks)) ERROR
       "Error occurred during batch indexing: range() arg 3 must not be zero").
Proof. reflexivity. Qed.

(** X4.  With a negative batch size [range] is empty, so whatever the
    chunks no embedding is computed, nothing is uploaded, only the first
    record is logged, and the call returns [True]. *)
Theorem index_with_negative_batch_size chunks brain_id batch_size
    (s : State Env) :
  batch_size < 0 →
  index_hybrid_collection chunks brain_id batch_size s
  = (inr true, logged s INFO (indexing_message chunks)).
Proof.
  intros Hneg. rewrite index_hybrid_collection_unfold.
  unfold Hybrid.index_loop, bind, lift.
  pose proof (batched_chunks_by_sign chunks batch_size) as Hsign.
  destruct (Hybrid.batched_chunks chunks batch_size) as [e|batches].
  - lia.
  - destruct Hsign as (_ & Hnil & _). by rewrite (Hnil Hneg).
Qed.

(** X5.  With no chunk and a batch size that is not zero the call makes
    no external call, logs that it indexes 0 documents and returns
    [True]. *)
Theorem index_of_no_chunks brain_id batch_size (s : State Env) :
  batch_size ≠ 0 →
  index_hybrid_collection [] brain_id batch_size s
  = (inr true,
     logged s INFO "Indexing 0 documents into Qdrant Hybrid Collection.").
Proof.
  intros Hnz. rewrite index_hybrid_collection_unfold.
  unfold Hybrid.index_loop, bind, lift.
  pose proof (batched_chunks_by_sign [] batch_size) as Hsign.
  destruct (Hybrid.batched_chunks [] batch_size) as [e|batches].
  - lia.
  - destruct Hsign as (_ & Hneg & Hpos & Hall).
    assert (batches = []) as ->; [|done].
    destruct (decide (batch_size < 0)); [by apply Hneg|].
    apply length_zero_iff_nil.
    assert (Py.len batches = 0); [|unfold Py.len in *; lia].
    rewrite Hpos by lia. apply Z.div_small. unfold Py.len. simpl. lia.
Qed.

End IndexingEdges.

(** ** Searching: failures *)

Section SearchFailures.
Context {Env : Type}.
Variable embed_query : string → Env → (Exn + DenseVec) * Env.
Variable sparse_embed : list string → Env → (Exn + list SparseEmbedding) * Env.
Variable query_points : QueryRequest → Env → (Exn + QueryResponse) * Env.
Variable rerank_docs :
  list ScoredPoint → string → Env → (Exn + list ScoredPoint) * Env.

Local Abbreviation dense_search := (Dense.dense_search query_points).
Local Abbreviation sparse_search :=
  (Hybrid.sparse_search sparse_embed query_points).
Local Abbreviation hybrid_search :=
  (Hybrid.hybrid_search embed_query sparse_embed query_points rerank_docs).
Local Abbreviation create_sparse_vector :=
  (Hybrid.create_sparse_vector sparse_embed).


(** X7.  [sparse_search] computes the sparse vector of the query with its
    own copy of the code of [create_sparse_vector]; the two agree: where
    [create_sparse_vector] raises, [sparse_search] raises the same
    exception from the same state, and where it returns a vector,
    [sparse_search] goes on from the same state with one search for that
    vector and returns or raises what the store answers. *)
Theorem sparse_search_embeds_like_create_sparse_vector
    (q pdf_id brain_id : string) (s : State Env) :
  match create_sparse_vector q s with
  | (inl e, s1) => sparse_search q pdf_id brain_id s = (inl e, s1)
  | (inr v, s1) =>
      ∃ answer r s',
        sparse_search q pdf_id brain_id s = (r, s') ∧
        trace s' = trace s1 ++
          [EvQueryPoints
             (mkQueryRequest brain_id [] (QSparse v) (Some "sparse")
                (Some (pdf_id_filter pdf_id)) None)
             answer] ∧
        r = sum_map id points answer
  end.
Proof.
  unfold Hybrid.sparse_search, Hybrid.create_sparse_vector. run_service.
  destruct (sparse_embed [q] (env s)) as [[err|[|x xs]] e1] eqn:Hs; simpl;
    [done..|].
  match goal with |- context [query_points ?req ?e] =>
    destruct (query_points req e) as [[err|fused] e2] eqn:Hq end; simpl.
  - by eexists (inl err), _, _.
  - by eexists (inr fused), _, _.
Qed.

(** X8.  [dense_search] makes one external call, the search; it returns
    the points of the answer, or raises the exception of the store; the
    second record, with the number of documents, is logged only when the
    store answers. *)
Theorem dense_search_hands_back_the_answer
    (q : DenseVec) (pdf_id brain_id : string) (s : State Env) :
  ∃ answer s',
    dense_search q pdf_id brain_id s = (sum_map id points answer, s') ∧
    trace s' = trace s ++
      [EvQueryPoints
         (mkQueryRequest brain_id [] (QDense q) (Some "dense")
            (Some (pdf_id_filter pdf_id)) None)
         answer] ∧
    log s' = log s ++
      mkLogRecord INFO "Begin dense Search" ::
      match answer with
      | inr resp =>
          [mkLogRecord INFO
             ("Dense Search Completed. " +:+ pretty (Py.len (points resp)))]
      | inl _ => []
      end.
Proof.
  unfold Dense.dense_search. run_service.
  match goal with |- context [query_points ?req ?e] =>
    destruct (query_points req e) as [[err|fused] e2] eqn:Hq end; simpl.
  - by eexists (inl err), _.
  - eexists (inr fused), _. split_and!; [done..|]. simpl.
    by rewrite <- app_assoc.
Qed.

End SearchFailures.

(** ** The manager, called again and again *)

Section ManagerMore.
Variable QDRANT_URL HYBRID_COLLECTION : string.

Local Abbreviation get_client := (Manager.get_client QDRANT_URL).
Local Abbreviation create_hybrid_collection :=
  (Manager.create_hybrid_collection QDRANT_URL HYBRID_COLLECTION).
Local Abbreviation ensured := (Manager.ensured HYBRID_COLLECTION).

Lemma repeat_get_client_held (n : nat) (w : Manager.World) c :
  Manager.client (Manager.self w) = Some (Some c) →
  repeat_call n get_client w = (inr (replicate n c), w).
Proof.
  intros Hc. induction n as [|n IH]; [done|].
  simpl. unfold bind at 1. rewrite (get_client_again QDRANT_URL w c Hc).
  unfold bind at 1. by rewrite IH.
Qed.

(** X9.  Once the manager holds a client, any number of calls of
    [get_client] return that client and change nothing; the configured URL
    is not looked at again, so a client built for another URL is handed
    back as it is. *)
Theorem get_client_keeps_the_held_client (n : nat) (w : Manager.World) c :
  Manager.client (Manager.self w) = Some (Some c) →
  repeat_call n get_client w = (inr (replicate n c), w) ∧
  (client_url c ≠ QDRANT_URL → Forall (λ c', client_url c' ≠ QDRANT_URL)
                                  (replicate n c)).
Proof.
  intros Hc. split; [by apply repeat_get_client_held|].
  intros Hurl. by apply Forall_replicate.
Qed.

(** X10.  On a manager whose [client] is [None] and which has a logger,
    [n + 1] calls of [get_client] in a row all return the same client,
    built once for the configured URL, and log its creation once. *)
Theorem get_client_constructs_once (n : nat) (w : Manager.World) lg :
  Manager.client (Manager.self w) = Some None →
  Manager.logger (Manager.self w) = Some lg →
  let c := mkQdrantClient (length (Manager.clients w)) QDRANT_URL in
  repeat_call (S n) get_client w
  = (inr (replicate (S n) c),
     Manager.mkWorld (Manager.mkManager (Some (Some c)) (Some lg))
       (Manager.clients w ++ [c]) (Manager.collections w)
       (Manager.mlog w ++ [mkLogRecord INFO "Qdrant client created."])).
Proof.
  intros Hc Hl c. simpl. unfold bind at 1.
  rewrite (get_client_first QDRANT_URL w lg Hc Hl). fold c.
  unfold bind at 1. by rewrite (repeat_get_client_held n _ c).
Qed.

(** X11.  On a manager whose [client] is [None] and which has no logger,
    the first call of [get_client] raises [AttributeError] after the client
    was built and stored; the next call returns that client. *)
Theorem get_client_without_logger (w : Manager.World) :
  Manager.client (Manager.self w) = Some None →
  Manager.logger (Manager.self w) = None →
  let c := mkQdrantClient (length (Manager.clients w)) QDRANT_URL in
  let w1 :=
    Manager.mkWorld (Manager.mkManager (Some (Some c)) None)
      (Manager.clients w ++ [c]) (Manager.collections w) (Manager.mlog w) in
  get_client w
  = (inl (AttributeError
            "'QdrantClientManager' object has no attribute 'logger'"), w1) ∧
  get_client w1 = (inr c, w1).
Proof.
  intros Hc Hl c w1. split; [|by apply get_client_again].
  unfold Manager.get_client, Manager.self_client, bind.
  rewrite Hc. simpl. unfold Manager.self_logger_info. simpl. by rewrite Hl.
Qed.


End ManagerMore.

(** ** [HyDEService.index_collection] *)

Section HyDEIndexing.
Context {Env V : Type}.
Variable uuid4 : Env → string * Env.
Variable add_documents :
  V → list Document → list string → Env → (Exn + list string) * Env.

Local Abbreviation index_collection :=
  (HyDEStore.index_collection uuid4 add_documents).

Lemma draw_uuids_run (n : nat) (s : State Env) :
  ∃ ids s1,
    repeat_call n (call_total uuid4 EvUuid4) s = (inr ids, s1) ∧
    length ids = n ∧
    trace s1 = trace s ++ (EvUuid4 <$> ids) ∧
    log s1 = log s.
Proof.
  revert s. induction n as [|n IH]; intros s.
  - exists [], s. simpl. by rewrite app_nil_r.
  - simpl. unfold bind at 1.
    assert (∃ id e1, call_total uuid4 EvUuid4 s
                     = (inr id, mkState e1 (log s) (trace s ++ [EvUuid4 id])))
      as (id & e1 & ->).
    { unfold call_total. destruct (uuid4 (env s)) as [id e1]. by eexists _, _. }
    destruct (IH (mkState e1 (log s) (trace s ++ [EvUuid4 id])))
      as (ids & s1 & Hrun & Hlen & Htr & Hlog).
    unfold bind at 1. rewrite Hrun. simpl in *.
    exists (id :: ids), s1. split_and!; [done|simpl; by f_equal| |done].
    by rewrite Htr, <- app_assoc.
Qed.

(** X13.  [HyDEService.index_collection] on a service as [__init__]
    leaves it: one identifier is drawn per chunk, then reading
    [self.vector_store] raises [AttributeError]; nothing is logged and no
    document is added. *)
Theorem index_collection_without_vector_store
    (client : QdrantClient) (chunks : list Document) (s : State Env) :
  ∃ ids s1,
    index_collection (HyDEStore.constructed client) chunks s
    = (inl HyDEStore.no_vector_store_attribute, s1) ∧
    repeat_call (length chunks) (call_total uuid4 EvUuid4) s = (inr ids, s1) ∧
    length ids = length chunks ∧
    trace s1 = trace s ++ (EvUuid4 <$> ids) ∧
    log s1 = log s.
Proof.
  destruct (draw_uuids_run (length chunks) s)
    as (ids & s1 & Hrun & Hlen & Htr & Hlog).
  exists ids, s1. split_and!; try done.
  unfold HyDEStore.index_collection. unfold bind at 1. by rewrite Hrun.
Qed.


End HyDEIndexing.

(** ** Indexing in two calls *)

Lemma windows_app {A} (b m1 m2 : nat) (l1 l2 : list A) :
  length l1 = (m1 * b)%nat →
  windows b (l1 ++ l2) (m1 + m2) = windows b l1 m1 ++ windows b l2 m2.
Proof.
  intros Hlen. unfold windows. rewrite seq_app, fmap_app. f_equal.
  - apply list_fmap_ext. intros i k Hk. apply lookup_seq in Hk as [Hki Hlt].
    simpl in Hki. subst k.
    rewrite drop_app_le by nia. rewrite take_app_le; [done|].
    rewrite length_drop. nia.
  - simpl.
    replace (seq m1 m2) with (Nat.add m1 <$> seq 0 m2)
      by (rewrite fmap_add_seq; f_equal; lia).
    rewrite <- list_fmap_compose.
    apply list_fmap_ext. intros i k Hk. simpl.
    rewrite drop_app_ge by nia. f_equal. f_equal. nia.
Qed.

Lemma batched_chunks_app (chunks1 chunks2 : list Document) (batch_size : Z) :
  0 < batch_size → Py.len chunks1 `mod` batch_size = 0 →
  ∃ batches1 batches2,
    Hybrid.batched_chunks chunks1 batch_size = inr batches1 ∧
    Hybrid.batched_chunks chunks2 batch_size = inr batches2 ∧
    Hybrid.batched_chunks (chunks1 ++ chunks2) batch_size
    = inr (batches1 ++ batches2).
Proof.
  intros Hbs Hmod. rewrite !batched_chunks_windows by done.
  eexists _, _. split; [done|]. split; [done|]. f_equal.
  pose proof (ceil_div_bounds (Py.len chunks1) batch_size
                ltac:(unfold Py.len; lia) Hbs) as (_ & _ & _ & _ & Hm1).
  rewrite decide_True in Hm1 by done.
  pose proof (Z.div_mod (Py.len chunks1) batch_size ltac:(lia)) as Hdm.
  assert (0 ≤ Py.len chunks1 `div` batch_size)
    by (apply Z.div_pos; unfold Py.len; lia).
  assert (0 ≤ (Py.len chunks2 + batch_size - 1) `div` batch_size)
    by (apply Z.div_pos; unfold Py.len; lia).
  assert ((Py.len (chunks1 ++ chunks2) + batch_size - 1) `div` batch_size
          = Py.len chunks1 `div` batch_size
            + (Py.len chunks2 + batch_size - 1) `div` batch_size) as ->.
  { unfold Py.len in *. rewrite length_app, Nat2Z.inj_add.
    replace (Z.of_nat (length chunks1) + Z.of_nat (length chunks2)
             + batch_size - 1)
      with (Z.of_nat (length chunks2) + batch_size - 1
            + (Z.of_nat (length chunks1) `div` batch_size) * batch_size)
      by lia.
    rewrite Z.div_add by lia. lia. }
  rewrite Hm1, Z.add_0_r, Z2Nat.inj_add by lia.
  apply windows_app. unfold Py.len in *. nia.
Qed.

Section TwoCalls.
Context {Env : Type}.
Variable embed_query : string → Env → (Exn + DenseVec) * Env.
Variable sparse_embed : list string → Env → (Exn + list SparseEmbedding) * Env.
Variable uuid4 : Env → string * Env.
Variable upload_points :
  string → list PointStruct → Z → Env → (Exn + ()) * Env.

Local Abbreviation index_doc := (Hybrid.index_doc embed_query sparse_embed uuid4).
Local Abbreviation index_docs := (Hybrid.index_docs embed_query sparse_embed uuid4).
Local Abbreviation index_batches :=
  (Hybrid.index_batches embed_query sparse_embed uuid4 upload_points).
Local Abbreviation index_loop :=
  (Hybrid.index_loop embed_query sparse_embed uuid4 upload_points).
Local Abbreviation index_hybrid_collection :=
  (Hybrid.index_hybrid_collection embed_query sparse_embed uuid4 upload_points).

Lemma index_doc_io i doc pts inv inv' (s t : State Env) :
  same_io s t →
  ∃ new k s1 t1,
    index_doc i doc pts inv s = (inr (pts ++ new, inv + k), s1) ∧
    index_doc i doc pts inv' t = (inr (pts ++ new, inv' + k), t1) ∧
    same_io s1 t1.
Proof.
  intros [He Ht]. destruct s as [e ls trs], t as [e' lt trt].
  simpl in He, Ht. subst e' trt.
  unfold Hybrid.index_doc, Hybrid.create_dense_vector,
    Hybrid.create_sparse_vector.
  run_service.
  destruct (embed_query (page_content doc) e) as [[err|d] e1]; simpl;
    destruct (sparse_embed [page_content doc] e1) as [[err'|[|x xs]] e2]; simpl;
    try (by eexists [], 1, _, _; rewrite app_nil_r).
  destruct (uuid4 e2) as [id e3]. simpl.
  eexists [_], 0, _, _. by rewrite !Z.add_0_r.
Qed.

Lemma index_docs_io (batch : list (nat * Document)) pts inv inv'
    (s t : State Env) :
  same_io s t →
  ∃ new k s1 t1,
    index_docs batch pts inv s = (inr (pts ++ new, inv + k), s1) ∧
    index_docs batch pts inv' t = (inr (pts ++ new, inv' + k), t1) ∧
    same_io s1 t1.
Proof.
  revert pts inv inv' s t.
  induction batch as [|[i doc] batch IH]; intros pts inv inv' s t Hst.
  - exists [], 0, s, t. simpl. by rewrite app_nil_r, !Z.add_0_r.
  - simpl. unfold bind.
    destruct (index_doc_io i doc pts inv inv' s t Hst)
      as (new1 & k1 & s1 & t1 & -> & -> & Hst1).
    destruct (IH (pts ++ new1) (inv + k1) (inv' + k1) s1 t1 Hst1)
      as (new2 & k2 & s2 & t2 & -> & -> & Hst2).
    exists (new1 ++ new2), (k1 + k2), s2, t2.
    by rewrite !app_assoc, !Z.add_assoc.
Qed.

Lemma index_batch_io n_chunks n_chunks' brain_id batch_size batch
    inv inv' (s t : State Env) :
  same_io s t →
  ∃ r s1 t1,
    Hybrid.index_batch embed_query sparse_embed uuid4 upload_points
      n_chunks brain_id batch_size batch inv s
    = (sum_map id (Z.add inv) r, s1) ∧
    Hybrid.index_batch embed_query sparse_embed uuid4 upload_points
      n_chunks' brain_id batch_size batch inv' t
    = (sum_map id (Z.add inv') r, t1) ∧
    same_io s1 t1.
Proof.
  intros Hst. unfold Hybrid.index_batch, bind.
  destruct (index_docs_io (Py.enumerate batch) [] inv inv' s t Hst)
    as (pts & k & s1 & t1 & -> & -> & [He Ht]).
  simpl. case_bool_decide as Hpts.
  - unfold call. rewrite <- He.
    destruct (upload_points brain_id pts batch_size (env s1)) as [[e|[]] e1].
    + eexists (inl e), _, _. split_and!; [done..|]. split; simpl; congruence.
    + run_service. eexists (inr k), _, _. split_and!; [done..|].
      split; simpl; congruence.
  - exists (inr k), s1, t1. by split_and!.
Qed.

Lemma index_batches_io n_chunks n_chunks' brain_id batch_size batches
    inv inv' (s t : State Env) :
  same_io s t →
  ∃ r s1 t1,
    index_batches n_chunks brain_id batch_size batches inv s
    = (sum_map id (Z.add inv) r, s1) ∧
    index_batches n_chunks' brain_id batch_size batches inv' t
    = (sum_map id (Z.add inv') r, t1) ∧
    same_io s1 t1.
Proof.
  revert inv inv' s t.
  induction batches as [|batch rest IH]; intros inv inv' s t Hst.
  - exists (inr 0), s, t. simpl. by rewrite !Z.add_0_r.
  - simpl. unfold bind.
    destruct (index_batch_io n_chunks n_chunks' brain_id batch_size batch
                inv inv' s t Hst) as (r1 & s1 & t1 & -> & -> & Hst1).
    destruct r1 as [e|k]; simpl.
    + by exists (inl e), s1, t1.
    + destruct (IH (inv + k) (inv' + k) s1 t1 Hst1)
        as (r & s2 & t2 & -> & -> & Hst2).
      exists (sum_map id (Z.add k) r), s2, t2.
      split_and!; [..|done]; destruct r; simpl; do 2 f_equal; lia.
Qed.

Lemma index_batches_app n_chunks brain_id batch_size batches1 batches2 inv
    (s : State Env) :
  index_batches n_chunks brain_id batch_size (batches1 ++ batches2) inv s
  = match index_batches n_chunks brain_id batch_size batches1 inv s with
    | (inr k, s1) => index_batches n_chunks brain_id batch_size batches2 k s1
    | (inl e, s1) => (inl e, s1)
    end.
Proof.
  revert inv s. induction batches1 as [|batch rest IH]; intros inv s; [done|].
  simpl. unfold bind.
  destruct (Hybrid.index_batch _ _ _ _ _ _ _ _ _ _) as [[e|k] s1]; [done|].
  apply IH.
Qed.

Lemma index_loop_two_calls chunks1 chunks2 brain_id batch_size
    (s s0 s1 t : State Env) k1 :
  0 < batch_size → Py.len chunks1 `mod` batch_size = 0 →
  index_loop chunks1 brain_id batch_size s = (inr k1, s1) →
  same_io s s0 → same_io s1 t →
  ∃ r s' t2,
    index_loop (chunks1 ++ chunks2) brain_id batch_size s0
    = (sum_map id (Z.add k1) r, s') ∧
    index_loop chunks2 brain_id batch_size t = (sum_map id (Z.add 0) r, t2) ∧
    same_io s' t2.
Proof.
  intros Hbs Hmod Hrun1 Hs0 Ht.
  destruct (batched_chunks_app chunks1 chunks2 batch_size Hbs Hmod)
    as (b1 & b2 & Hb1 & Hb2 & Hb12).
  unfold Hybrid.index_loop, bind, lift in *.
  rewrite Hb1 in Hrun1. rewrite Hb2, Hb12. rewrite index_batches_app.
  destruct (index_batches_io (Py.len chunks1) (Py.len (chunks1 ++ chunks2))
              brain_id batch_size b1 0 0 s s0 Hs0)
    as (r1 & s1' & s0' & Hr1 & -> & Hio1).
  rewrite Hrun1 in Hr1. destruct r1 as [e|k]; simpl in Hr1; [done|].
  injection Hr1 as -> ->. simpl. rewrite Z.add_0_l.
  assert (same_io s0' t) as Hio2.
  { destruct Hio1, Ht. split; congruence. }
  destruct (index_batches_io (Py.len (chunks1 ++ chunks2)) (Py.len chunks2)
              brain_id batch_size b2 k 0 s0' t Hio2)
    as (r & s' & t2 & -> & -> & Hio).
  by exists r, s', t2.
Qed.

(** X15.  Indexing in two calls: when the first list of chunks is a whole
    number of batches and its indexing returned [True], indexing the second
    list afterwards returns the same value, makes the same external calls
    and leaves the same environment as indexing the two lists at once. *)
Theorem index_in_two_calls chunks1 chunks2 brain_id batch_size
    (s s1 : State Env) :
  0 < batch_size → Py.len chunks1 `mod` batch_size = 0 →
  index_hybrid_collection chunks1 brain_id batch_size s = (inr true, s1) →
  ∃ r s2 s',
    index_hybrid_collection chunks2 brain_id batch_size s1 = (r, s2) ∧
    index_hybrid_collection (chunks1 ++ chunks2) brain_id batch_size s
    = (r, s') ∧
    env s' = env s2 ∧ trace s' = trace s2.
Proof.
  intros Hbs Hmod Hrun1.
  rewrite index_hybrid_collection_unfold in Hrun1.
  destruct (index_loop chunks1 _ _ _) as [[e|k1] s1'] eqn:Hloop1; [done|].
  injection Hrun1 as Hk ->. apply Z.eqb_eq in Hk as ->.
  destruct (index_loop_two_calls chunks1 chunks2 brain_id batch_size
              _ (logged s INFO (indexing_message (chunks1 ++ chunks2)))
              _ (logged s1 INFO (indexing_message chunks2)) 0 Hbs Hmod Hloop1)
    as (r & s' & t2 & Hr12 & Hr2 & [He Htr]); [done..|].
  rewrite !index_hybrid_collection_unfold.
  fold (indexing_message chunks2). fold (indexing_message (chunks1 ++ chunks2)).
  rewrite Hr12, Hr2. destruct r as [e|k]; simpl; by eexists _, _, _.
Qed.

End TwoCalls.

(** ** Instances of the further properties *)

Lemma index_with_negative_batch_size_witness :
  -1 < 0 ∧
  Hybrid.index_hybrid_collection Fixture.embed_query (Fixture.sparse_embed "")
    Fixture.uuid4 Fixture.upload_points (take 3 Fixture.chunks130) "brain" (-1)
    Fixture.init
  = (inr true,
     logged Fixture.init INFO (indexing_message (take 3 Fixture.chunks130))).
Proof.
  split; [reflexivity|].
  exact (index_with_negative_batch_size Fixture.embed_query
           (Fixture.sparse_embed "") Fixture.uuid4 Fixture.upload_points
           (take 3 Fixture.chunks130) "brain" (-1) Fixture.init eq_refl).
Defined.

Lemma index_of_no_chunks_witness :
  (64 : Z) ≠ 0 ∧
  Hybrid.index_hybrid_collection Fixture.embed_query (Fixture.sparse_embed "")
    Fixture.uuid4 Fixture.upload_points [] "brain" 64 Fixture.init
  = (inr true,
     logged Fixture.init INFO
       "Indexing 0 documents into Qdrant Hybrid Collection.").
Proof.
  assert ((64 : Z) ≠ 0) as H by discriminate.
  split; [exact H|].
  exact (index_of_no_chunks Fixture.embed_query (Fixture.sparse_embed "")
           Fixture.uuid4 Fixture.upload_points "brain" 64 Fixture.init H).
Defined.

Lemma index_in_two_calls_witness :
  let index :=
    Hybrid.index_hybrid_collection Fixture.embed_query
      (Fixture.sparse_embed "chunk 6") Fixture.uuid4 Fixture.upload_points in
  let first := take 4 Fixture.chunks130 in
  let rest := take 3 (drop 4 Fixture.chunks130) in
  let s1 := (index first "brain" 2 Fixture.init).2 in
  (0 < 2 ∧ Py.len first `mod` 2 = 0 ∧
   index first "brain" 2 Fixture.init = (inr true, s1)) ∧
  ∃ r s2 s',
    index rest "brain" 2 s1 = (r, s2) ∧
    index (first ++ rest) "brain" 2 Fixture.init = (r, s') ∧
    env s' = env s2 ∧ trace s' = trace s2.
Proof.
  intros index first rest s1.
  assert (0 < 2) as H1 by reflexivity.
  assert (Py.len first `mod` 2 = 0) as H2 by (vm_compute; reflexivity).
  assert (index first "brain" 2 Fixture.init = (inr true, s1)) as H3
    by (vm_compute; reflexivity).
  split; [exact (conj H1 (conj H2 H3))|].
  exact (index_in_two_calls Fixture.embed_query
           (Fixture.sparse_embed "chunk 6") Fixture.uuid4
           Fixture.upload_points first rest "brain" 2 Fixture.init s1
           H1 H2 H3).
Defined.

Lemma get_client_constructs_once_witness :
  let c := mkQdrantClient 0 Cases.url in
  (repeat_call 3 (Manager.get_client Cases.url) Cases.ready).1 = inr [c; c; c] ∧
  Manager.clients (repeat_call 3 (Manager.get_client Cases.url) Cases.ready).2
  = [c].
Proof.
  intros c.
  pose proof (get_client_constructs_once Cases.url 2 Cases.ready "pipeline"
                eq_refl eq_refl) as H.
  cbv zeta in H. rewrite H. by split.
Defined.

Lemma get_client_keeps_the_held_client_witness :
  let c := mkQdrantClient 0 "http://old:6333" in
  repeat_call 2 (Manager.get_client Cases.url) Cases.stale
  = (inr [c; c], Cases.stale) ∧
  Forall (λ c', client_url c' ≠ Cases.url) [c; c].
Proof.
  intros c.
  destruct (get_client_keeps_the_held_client Cases.url 2 Cases.stale c eq_refl)
    as [Hrun Hurl].
  split; [exact Hrun|]. apply Hurl. discriminate.
Defined.

Lemma get_client_without_logger_witness :
  let c := mkQdrantClient 0 Cases.url in
  let w1 :=
    Manager.mkWorld (Manager.mkManager (Some (Some c)) None) [c] ∅ [] in
  Manager.get_client Cases.url Cases.mute
  = (inl (AttributeError
            "'QdrantClientManager' object has no attribute 'logger'"), w1) ∧
  Manager.get_client Cases.url w1 = (inr c, w1).
Proof.
  exact (get_client_without_logger Cases.url Cases.mute eq_refl eq_refl).
Defined.



